(** * The NYC-311 batch loader ([etl/etl.py]): model and properties

    The loader reads a CSV extract chunk by chunk with pandas, cleans every
    chunk ([clean_data]), binds nine parameters per row ([safe_value] over
    [row.get]) into a [REPLACE INTO service_requests] statement, commits
    once per chunk and prints a summary.

    The development follows the source: pandas cells are a small sum type,
    a [DataFrame] is a list of named columns, the MySQL table is a list of
    stored rows, and [main] is written in a state-and-exception monad whose
    state holds the connection, the table and the printed lines.

    Floats are IEEE 754 doubles, with the operations of the standard
    library's [SpecFloat] at the parameters of binary64.

    What the collaborators do is not in the repository and is taken as
    given: the text parsers of pandas are the fields of a class, together
    with what pandas 2 reads out of ISO dates and plain decimals, and the
    outcome of every call to the reader and to the server during one run
    is read from a record. *)

From Stdlib Require Import String Ascii ZArith Bool Lia Arith List.
From Stdlib Require Import DecimalString SpecFloat.
Import ListNotations.
Local Open Scope string_scope.
Local Open Scope list_scope.

(** ** Doubles *)

(** Python's [float] and numpy's float64. *)
Definition float : Type := spec_float.

Module float64.

Definition prec : Z := 53.
Definition emax : Z := 1024.

Definition zero : float := S754_zero false.
Definition nan : float := S754_nan.
Definition inf : float := S754_infinity false.

(** [float(z)] for an int [z], and the cast of an int64 to float64: the
    nearest double, ties to even.  (Python raises [OverflowError] where
    the nearest double would be an infinity, for ints from [2^1024 - 2^970]
    on.) *)
Definition of_int (z : Z) : float := binary_normalize prec emax z 0 false.

(** [x / y], [x - y], [-x] and [x < y] on floats; a division by zero gives
    an infinity or [nan] as in numpy (Python raises [ZeroDivisionError],
    and [rows_per_sec] guards its division). *)
Definition div : float -> float -> float := SFdiv prec emax.
Definition sub : float -> float -> float := SFsub prec emax.
Definition opp : float -> float := SFopp.
Definition ltb : float -> float -> bool := SFltb.

Definition is_nan (x : float) : bool :=
  match x with
  | S754_nan => true
  | _ => false
  end.

Definition is_finite (x : float) : bool :=
  match x with
  | S754_zero _ | S754_finite _ _ _ => true
  | _ => false
  end.

(** The sign bit, for what has one. *)
Definition signbit (x : float) : bool :=
  match x with
  | S754_zero s | S754_infinity s | S754_finite s _ _ => s
  | S754_nan => false
  end.

End float64.

Arguments float64.of_int : simpl never.
Arguments float64.div : simpl never.
Arguments float64.sub : simpl never.

Definition float_eq_dec (a b : float) : {a = b} + {a <> b}.
Proof.
  decide equality;
    first [apply Bool.bool_dec | apply Pos.eq_dec | apply Z.eq_dec].
Defined.

(** ** Cells *)

(** A Python number: an int or a float. *)
Inductive number : Type :=
| NInt (z : Z)
| NFloat (x : float).

(** A scalar found in a cell of a frame: the missing-value markers [None]
    and [pd.NaT], and the concrete values [read_csv], [to_datetime] and
    [to_numeric] produce.  The third marker, [float('nan')], is the float
    it is.  A [VTimestamp] carries the nanoseconds since the Unix epoch. *)
Inductive value : Type :=
| VNone
| VNaT
| VInt (z : Z)
| VFloat (x : float)
| VStr (s : string)
| VTimestamp (t : Z).

Abbreviation VNaN := (VFloat S754_nan).

Definition value_eq_dec (a b : value) : {a = b} + {a <> b}.
Proof.
  decide equality;
    first [apply Z.eq_dec | apply float_eq_dec | apply string_dec].
Defined.

Definition value_eqb (a b : value) : bool :=
  if value_eq_dec a b then true else false.

(** The number a numeric cell holds. *)
Definition numeric_value (v : value) : option number :=
  match v with
  | VNaN => None
  | VInt z => Some (NInt z)
  | VFloat x => Some (NFloat x)
  | _ => None
  end.

(** ** Texts with a fixed reading

    What an ISO date and a plain decimal denote.  These are the texts the
    parsers of pandas are given a reading for; what they make of any other
    text is left open. *)

Definition is_digit (c : ascii) : bool :=
  Nat.leb 48 (nat_of_ascii c) && Nat.leb (nat_of_ascii c) 57.

Definition digit_value (c : ascii) : Z := Z.of_nat (nat_of_ascii c) - 48.

(** The number a string of decimal digits writes, after [acc]. *)
Fixpoint decimal_value (acc : Z) (l : list ascii) : Z :=
  match l with
  | [] => acc
  | c :: l' => decimal_value (10 * acc + digit_value c) l'
  end.

(** The two layouts: [YYYY-MM-DD] and [YYYY-MM-DD HH:MM:SS]. *)
Inductive iso_format : Type :=
| ISO_date
| ISO_datetime.

(** The [strftime] format pandas has for a layout. *)
Definition format_text (f : iso_format) : string :=
  match f with
  | ISO_date => "%Y-%m-%d"
  | ISO_datetime => "%Y-%m-%d %H:%M:%S"
  end.

Local Open Scope Z_scope.

Definition is_leap (y : Z) : bool :=
  (y mod 4 =? 0) && (negb (y mod 100 =? 0) || (y mod 400 =? 0)).

Definition days_in_month (y m : Z) : Z :=
  if m =? 2 then (if is_leap y then 29 else 28)
  else if (m =? 4) || (m =? 6) || (m =? 9) || (m =? 11) then 30
  else 31.

(** Days from 1970-01-01 to the day [d] of month [m] of year [y] in the
    Gregorian calendar, for [y >= 1]. *)
Definition days_from_civil (y m d : Z) : Z :=
  let y' := if m <=? 2 then y - 1 else y in
  let era := y' / 400 in
  let yoe := y' - era * 400 in
  let doy := (153 * (if m <=? 2 then m + 9 else m - 3) + 2) / 5 + d - 1 in
  let doe := yoe * 365 + yoe / 4 - yoe / 100 + doy in
  era * 146097 + doe - 719468.

(** Midnight of a calendar day, in nanoseconds since the epoch; the years
    are those a [datetime64[ns]] holds in full. *)
Definition date_ns (y m d : Z) : option Z :=
  if (1678 <=? y) && (y <=? 2261) && (1 <=? m) && (m <=? 12)
     && (1 <=? d) && (d <=? days_in_month y m)
  then Some (days_from_civil y m d * 86400000000000)
  else None.

Definition time_ns (h m s : Z) : option Z :=
  if (h <? 24) && (m <? 60) && (s <? 60)
  then Some ((h * 3600 + m * 60 + s) * 1000000000)
  else None.

Local Close Scope Z_scope.

Definition iso_date (l : list ascii) : option Z :=
  match l with
  | [y1; y2; y3; y4; a; m1; m2; b; d1; d2] =>
      if forallb is_digit [y1; y2; y3; y4; m1; m2; d1; d2]
         && Ascii.eqb a "-" && Ascii.eqb b "-"
      then date_ns (decimal_value 0 [y1; y2; y3; y4])
                   (decimal_value 0 [m1; m2]) (decimal_value 0 [d1; d2])
      else None
  | _ => None
  end.

Definition iso_time (l : list ascii) : option Z :=
  match l with
  | [h1; h2; a; m1; m2; b; s1; s2] =>
      if forallb is_digit [h1; h2; m1; m2; s1; s2]
         && Ascii.eqb a ":" && Ascii.eqb b ":"
      then time_ns (decimal_value 0 [h1; h2]) (decimal_value 0 [m1; m2])
                   (decimal_value 0 [s1; s2])
      else None
  | _ => None
  end.

(** The layout of an ISO text and the instant it writes. *)
Definition iso (s : string) : option (iso_format * Z) :=
  let l := list_ascii_of_string s in
  if Nat.eqb (List.length l) 10
  then option_map (pair ISO_date) (iso_date l)
  else
    match iso_date (firstn 10 l), skipn 10 l with
    | Some d, sp :: l' =>
        if Ascii.eqb sp " "
        then option_map (fun t => (ISO_datetime, d + t)%Z) (iso_time l')
        else None
    | _, _ => None
    end.

(** What [to_numeric] reads out of a text, as [maybe_convert_numeric]
    keeps it: the float ([fval]), and the int when the text may be one
    ([as_int]). *)
Record reading : Type := {
  fval : float;
  as_int : option Z
}.

Definition split_sign (l : list ascii) : bool * list ascii :=
  match l with
  | c :: l' => if Ascii.eqb c "-" then (true, l') else (false, l)
  | [] => (false, l)
  end.

(** The digits before the first point, and those after it if there is
    one. *)
Fixpoint split_point (l : list ascii) : list ascii * option (list ascii) :=
  match l with
  | [] => ([], None)
  | c :: l' =>
      if Ascii.eqb c "."
      then ([], Some l')
      else let (a, b) := split_point l' in (c :: a, b)
  end.

Definition nonempty {A} (l : list A) : bool :=
  match l with
  | [] => false
  | _ => true
  end.

Definition signed (neg : bool) (x : float) : float :=
  if neg then float64.opp x else x.

(** A plain decimal: an optional minus sign and digits, with at most one
    point between two of them, fifteen digits at most.  The digits are an
    int below [10^15], which a double holds exactly, so that the float of
    the text is that int divided once by the power of ten of its
    decimals. *)
Definition decimal (s : string) : option reading :=
  let (neg, l) := split_sign (list_ascii_of_string s) in
  let (ip, fp) := split_point l in
  match fp with
  | None =>
      if nonempty ip && forallb is_digit ip && Nat.leb (List.length ip) 15
      then
        let n := decimal_value 0 ip in
        Some {| fval := signed neg (float64.of_int n);
                as_int := Some (if neg then - n else n)%Z |}
      else None
  | Some fp =>
      if nonempty ip && nonempty fp && forallb is_digit (ip ++ fp)
         && Nat.leb (List.length (ip ++ fp)) 15
      then
        Some {| fval := signed neg
                          (float64.div
                             (float64.of_int (decimal_value 0 (ip ++ fp)))
                             (float64.of_int (10 ^ Z.of_nat (List.length fp))));
                as_int := None |}
      else None
  end.

(** ** The parsers of pandas

    The string parsers of pandas are not part of the repository: they are
    taken as parameters.
    - [guess_datetime_format s] is the format pandas infers from the text
      [s], if it infers one;
    - [strptime fmt s] is what [array_strptime] reads out of the text [s]
      under the format [fmt] ([None]: no match, coerced to [NaT]);
    - [parse_datetime s] is what [array_to_datetime] reads out of [s] on
      its own ([None]: coerced to [NaT]);
    - [datetime_of_number n] is the epoch offset [array_to_datetime] gives
      to a number ([None]: out of range);
    - [strptime_number fmt n] is what [array_strptime] reads out of a
      number, whose text it matches against the format;
    - [parse_numeric s] is what [floatify] and [int] read out of [s]
      ([None]: coerced to [NaN]).
    The laws say how pandas 2 reads the texts of the section above: an
    ISO text has the format of its layout, matches that format and not the
    other one, and reads as the instant it writes; a plain decimal reads
    as the number it writes. *)
Class Parser : Type := {
  guess_datetime_format : string -> option string;
  strptime : string -> string -> option Z;
  parse_datetime : string -> option Z;
  datetime_of_number : number -> option Z;
  strptime_number : string -> number -> option Z;
  parse_numeric : string -> option reading;
  guess_iso : forall s f t,
    iso s = Some (f, t) -> guess_datetime_format s = Some (format_text f);
  strptime_iso : forall s f t,
    iso s = Some (f, t) -> strptime (format_text f) s = Some t;
  strptime_other_iso : forall s f t g,
    iso s = Some (f, t) -> g <> f -> strptime (format_text g) s = None;
  parse_datetime_iso : forall s f t,
    iso s = Some (f, t) -> parse_datetime s = Some t;
  parse_numeric_decimal : forall s r,
    decimal s = Some r -> parse_numeric s = Some r
}.

(** ** pandas *)

Module pd.

(** [pd.isna] on a scalar. *)
Definition isna (v : value) : bool :=
  match v with
  | VNone | VNaN | VNaT => true
  | _ => false
  end.

Definition Series : Type := list value.

(** [s.fillna(fill)] *)
Definition fillna (fill : value) (s : Series) : Series :=
  map (fun v => if isna v then fill else v) s.

(** [s.replace(to_replace, repl)] for a string [to_replace]: cells equal
    to that string are replaced, every other cell is kept. *)
Definition replace (to_replace repl : string) (s : Series) : Series :=
  map (fun v =>
         match v with
         | VStr x => if String.eqb x to_replace then VStr repl else v
         | _ => v
         end) s.

Definition datetime_or_NaT (o : option Z) : value :=
  match o with
  | Some t => VTimestamp t
  | None => VNaT
  end.

Definition nat_strings : list string :=
  ["NaT"; "nat"; "NAT"; "nan"; "NaN"; "NAN"].

Definition mem (s : string) (l : list string) : bool :=
  existsb (String.eqb s) l.

(** The cells [tslib.first_non_null] passes over: the missing ones, and
    the texts that are empty, name [NaT] or say [now] or [today]. *)
Definition is_null_text (v : value) : bool :=
  match v with
  | VStr s => String.eqb s "" || mem s nat_strings || mem s ["now"; "today"]
  | _ => isna v
  end.

Definition first_non_null (s : Series) : option value :=
  find (fun v => negb (is_null_text v)) s.

(** [_guess_datetime_format_for_array]: the format of the column is
    guessed from its first cell that is not null, when that is a text. *)
Definition guess_datetime_format_for_array `{Parser} (s : Series)
  : option string :=
  match first_non_null s with
  | Some (VStr x) => guess_datetime_format x
  | _ => None
  end.

(** One cell under [array_strptime]: every text has to match the format
    of the column, and a number is matched through its text. *)
Definition strptime_cell `{Parser} (fmt : string) (v : value) : value :=
  match v with
  | VNone | VNaN | VNaT => VNaT
  | VStr s => datetime_or_NaT (strptime fmt s)
  | VInt z => datetime_or_NaT (strptime_number fmt (NInt z))
  | VFloat x => datetime_or_NaT (strptime_number fmt (NFloat x))
  | VTimestamp t => VTimestamp t
  end.

(** One cell under [array_to_datetime], where no format was guessed. *)
Definition to_datetime_cell `{Parser} (v : value) : value :=
  match v with
  | VNone | VNaN | VNaT => VNaT
  | VStr s => datetime_or_NaT (parse_datetime s)
  | VInt z => datetime_or_NaT (datetime_of_number (NInt z))
  | VFloat x => datetime_or_NaT (datetime_of_number (NFloat x))
  | VTimestamp t => VTimestamp t
  end.

(** [pd.to_datetime(s, errors='coerce')], with no [format] given: when a
    format is guessed for the column every cell is read under it, and
    otherwise every cell is read on its own. *)
Definition to_datetime `{Parser} (s : Series) : Series :=
  match guess_datetime_format_for_array s with
  | Some fmt => map (strptime_cell fmt) s
  | None => map to_datetime_cell s
  end.

(** The two arrays [maybe_convert_numeric] fills side by side: the int of
    every cell that has one, and the float of every cell. *)
Definition int_of_cell `{Parser} (v : value) : option Z :=
  match v with
  | VInt z => Some z
  | VTimestamp t => Some t
  | VStr s =>
      match parse_numeric s with
      | Some r => as_int r
      | None => None
      end
  | _ => None
  end.

Definition float_of_cell `{Parser} (v : value) : float :=
  match v with
  | VInt z => float64.of_int z
  | VTimestamp t => float64.of_int t
  | VFloat x => x
  | VStr s =>
      match parse_numeric s with
      | Some r => fval r
      | None => float64.nan
      end
  | VNone | VNaT => float64.nan
  end.

Fixpoint ints `{Parser} (s : Series) : option (list Z) :=
  match s with
  | [] => Some []
  | v :: s' =>
      match int_of_cell v, ints s' with
      | Some z, Some zs => Some (z :: zs)
      | _, _ => None
      end
  end.

Definition floats `{Parser} (s : Series) : list float :=
  map float_of_cell s.

(** [pd.to_numeric(s, errors='coerce')]: the result is an int64 column
    when every cell came out as an int, and the float64 column
    otherwise. *)
Definition to_numeric `{Parser} (s : Series) : Series :=
  match ints s with
  | Some zs => map VInt zs
  | None => map VFloat (floats s)
  end.

(** A frame: the number of rows of its index and its named columns, in
    column order. *)
Record DataFrame : Type := {
  nrows : nat;
  cols : list (string * Series)
}.

(** [len(df)] *)
Definition len (df : DataFrame) : nat := nrows df.

(** [df.columns] *)
Definition columns (df : DataFrame) : list string := map fst (cols df).

(** [c in df.columns] *)
Definition in_columns (c : string) (df : DataFrame) : bool :=
  existsb (String.eqb c) (columns df).

Fixpoint lookup_col (c : string) (l : list (string * Series)) : option Series :=
  match l with
  | [] => None
  | (c', s) :: l' => if String.eqb c c' then Some s else lookup_col c l'
  end.

(** [df[c]]; pandas raises [KeyError] for an absent label, which
    [clean_data] rules out by testing [c in df.columns] first. *)
Definition getitem (df : DataFrame) (c : string) : Series :=
  match lookup_col c (cols df) with
  | Some s => s
  | None => []
  end.

(** [df[c] = s]: the column labelled [c] is overwritten in place, or a new
    last column is added when the label is absent. *)
Definition setitem (df : DataFrame) (c : string) (s : Series) : DataFrame :=
  {| nrows := nrows df;
     cols := if in_columns c df
             then map (fun cs => if String.eqb c (fst cs) then (c, s) else cs)
                      (cols df)
             else cols df ++ [(c, s)] |}.

(** [df.replace({np.nan: None})]: pandas matches [NaN] through its mask of
    missing cells, so in every column the cells that are [NaN], [NaT] or
    already [None] come out as [None], and every other cell is kept. *)
Definition replace_nan_None (df : DataFrame) : DataFrame :=
  {| nrows := nrows df;
     cols := map (fun cs => (fst cs,
                             map (fun v => if isna v then VNone else v) (snd cs)))
                 (cols df) |}.

(** A row as [iterrows] yields it: a Series indexed by the column labels.
    The cells are yielded as they are stored, which is what pandas does
    for a frame with a column of text, as the extract has several (over
    numeric columns alone it would widen the ints of a row to floats). *)
Definition Row : Type := list (string * value).

Definition row_at (df : DataFrame) (i : nat) : Row :=
  map (fun cs => (fst cs, nth i (snd cs) VNaN)) (cols df).

(** [df.iterrows()], without the index labels the loader ignores. *)
Definition iterrows (df : DataFrame) : list Row :=
  map (row_at df) (seq 0 (nrows df)).

(** [row.get(key, default)] *)
Fixpoint get (row : Row) (key : string) (default : value) : value :=
  match row with
  | [] => default
  | (k, v) :: row' => if String.eqb key k then v else get row' key default
  end.

(** The cell of column [c] at row [i], when both exist. *)
Definition cell (df : DataFrame) (c : string) (i : nat) : option value :=
  match lookup_col c (cols df) with
  | Some s => nth_error s i
  | None => None
  end.

(** Every column has one cell per row of the index. *)
Definition well_formed (df : DataFrame) : Prop :=
  Forall (fun cs => length (snd cs) = nrows df) (cols df).

(** The remaining two are not pandas functions: they name the shape of the
    statements of [clean_data] for the proofs. *)

(** [df[c] = f(df[c])] under the guard [if c in df.columns], the shape of
    the first five statements of [clean_data]. *)
Definition update (c : string) (f : Series -> Series) (df : DataFrame) : DataFrame :=
  if in_columns c df then setitem df c (f (getitem df c)) else df.

Definition none_if_na (v : value) : value :=
  if isna v then VNone else v.

End pd.

(** ** etl.py: cleaning and parameter binding *)

Definition CHUNK_SIZE : N := 10000%N.

Section Cleaning.
Context `{Parser}.

(** Clean and transform the data. *)
Definition clean_data (df : pd.DataFrame) : pd.DataFrame :=
  let df :=
    if pd.in_columns "Borough" df
    then pd.setitem df "Borough"
           (pd.replace "" "UNKNOWN"
              (pd.fillna (VStr "UNKNOWN") (pd.getitem df "Borough")))
    else df in
  let df :=
    if pd.in_columns "Created Date" df
    then pd.setitem df "Created Date"
           (pd.to_datetime (pd.getitem df "Created Date"))
    else df in
  let df :=
    if pd.in_columns "Closed Date" df
    then pd.setitem df "Closed Date"
           (pd.to_datetime (pd.getitem df "Closed Date"))
    else df in
  let df :=
    if pd.in_columns "Latitude" df
    then pd.setitem df "Latitude"
           (pd.to_numeric (pd.getitem df "Latitude"))
    else df in
  let df :=
    if pd.in_columns "Longitude" df
    then pd.setitem df "Longitude"
           (pd.to_numeric (pd.getitem df "Longitude"))
    else df in
  let df := pd.replace_nan_None df in
  df.

End Cleaning.

Arguments clean_data : simpl never.

(** Convert pandas NaN/NaT to Python None for MySQL. *)
Definition safe_value (val : value) : value :=
  if pd.isna val then VNone else val.

(** The nine values bound to the placeholders of the [REPLACE] statement,
    under the names of the columns they are written to. *)
Record params : Type := {
  unique_key : value;
  created_date : value;
  closed_date : value;
  agency : value;
  complaint_type : value;
  descriptor : value;
  borough : value;
  latitude : value;
  longitude : value
}.

Definition params_list (p : params) : list value :=
  [unique_key p; created_date p; closed_date p; agency p; complaint_type p;
   descriptor p; borough p; latitude p; longitude p].

(** The tuple built at lines 83-93 of [main]. *)
Definition bind_params (row : pd.Row) : params :=
  {| unique_key := safe_value (pd.get row "Unique Key" VNone);
     created_date := safe_value (pd.get row "Created Date" VNone);
     closed_date := safe_value (pd.get row "Closed Date" VNone);
     agency := safe_value (pd.get row "Agency" VNone);
     complaint_type := safe_value (pd.get row "Complaint Type" VNone);
     descriptor := safe_value (pd.get row "Descriptor" VNone);
     borough := safe_value (pd.get row "Borough" (VStr "UNKNOWN"));
     latitude := safe_value (pd.get row "Latitude" VNone);
     longitude := safe_value (pd.get row "Longitude" VNone) |}.

(** ** The relational sink *)

(** The message of a Python exception. *)
Definition exn : Type := string.

(** Modelled from the spec: the [service_requests] table, whose DDL is not
    among the sources.  The spec gives it the nine columns of the [REPLACE]
    statement with [unique_key] as primary key; a stored row is the tuple
    that was bound. *)
Definition table : Type := list params.

Definition has_key (k : value) (r : params) : bool :=
  value_eqb (unique_key r) k.

Definition rows_with_key (k : value) (t : table) : table :=
  filter (has_key k) t.

(** [REPLACE INTO service_requests (...) VALUES (...)]: the rows that hold
    the primary key of the new row are deleted, then the new row is
    inserted. *)
Definition replace_into (t : table) (p : params) : table :=
  filter (fun r => negb (has_key (unique_key p) r)) t ++ [p].

(** ** Console output *)

(** One constructor per [print] call of [main], with the values the
    f-string interpolates; [PrTraceback] is what [traceback.print_exc()]
    writes, and [PrUncaught] is the last line of the report the interpreter
    writes for an exception that nothing caught. *)
Inductive output : Type :=
| PrStarting
| PrColumns (cs : list string)
| PrBlank
| PrProcessing (chunk_num rows : nat)
| PrRowError (key : value) (e : exn)
| PrInserted (rows total : nat)
| PrRule (leading_newline : bool)
| PrComplete
| PrTotal (total_rows : nat)
| PrErrors (error_count : nat)
| PrDuration (text : string)
| PrSpeed (text : string)
| PrFatal (e : exn)
| PrTraceback
| PrUncaught (e : exn).

(** ** Summary statistics *)

(** [total_rows / duration if duration > 0 else 0]: the int is converted
    and divided as a double; the int [0] of the other branch prints as
    the float [0.0] does. *)
Definition rows_per_sec (total_rows : nat) (duration : float) : float :=
  if float64.ltb float64.zero duration
  then float64.div (float64.of_int (Z.of_nat total_rows)) duration
  else float64.zero.

(** The nearest integer to [n / d] for [n >= 0] and [d > 0], ties to
    even. *)
Definition round_half_even (n d : Z) : Z :=
  let fl := (n / d)%Z in
  let r2 := (2 * (n mod d))%Z in
  if (r2 <? d)%Z then fl
  else if (d <? r2)%Z then (fl + 1)%Z
  else if Z.even fl then fl else (fl + 1)%Z.

(** The double [m * 2^e] in hundredths, rounded from its exact value. *)
Definition hundredths (m : positive) (e : Z) : Z :=
  match e with
  | Zneg p => round_half_even (100 * Zpos m) (2 ^ Zpos p)
  | _ => (100 * Zpos m * 2 ^ e)%Z
  end.

Definition digit (n : Z) : ascii := ascii_of_nat (48 + Z.to_nat n).

(** A number of hundredths in fixed notation: integer part, a point and
    two digits. *)
Definition fixed_2 (c : Z) : string :=
  (NilZero.string_of_uint (N.to_uint (Z.to_N (c / 100)))
   ++ "."
   ++ String (digit ((c / 10) mod 10)) (String (digit (c mod 10)) ""))%string.

(** [f"{x:.2f}"]: the exact value of the double rounded to two decimals,
    with the sign of the double. *)
Definition format_2f (x : float) : string :=
  match x with
  | S754_nan => "nan"
  | S754_infinity s => if s then "-inf" else "inf"
  | S754_zero s => ((if s then "-" else "") ++ fixed_2 0)%string
  | S754_finite s m e =>
      ((if s then "-" else "") ++ fixed_2 (hundredths m e))%string
  end.

(** ** The world around one run *)

Inductive result (A : Type) : Type :=
| Ok (a : A)
| Raise (e : exn).
Arguments Ok {A} a.
Arguments Raise {A} e.

(** What the collaborators do during one run of [main]: whether
    [pymysql.connect] fails, what the one-row sample read and the chunked
    reader give (the reader may raise after its last chunk), which
    [cursor.execute] calls the server rejects (by chunk number and row
    position in the chunk), which [conn.commit] calls fail (by chunk
    number), and the two clock readings. *)
Record world : Type := {
  connect_error : option exn;
  sample_read : result pd.DataFrame;
  chunks : list pd.DataFrame;
  reader_error : option exn;
  execute_error : nat -> nat -> option exn;
  commit_error : nat -> option exn;
  start_time : float;
  end_time : float
}.

(** The connection (open or not, with the table as committed and as seen
    inside the open transaction), the cursor, the three counters of [main]
    and the lines printed so far, oldest first. *)
Record state : Type := {
  conn_open : bool;
  cursor_open : bool;
  committed : table;
  working : table;
  total_rows : nat;
  chunk_num : nat;
  error_count : nat;
  out : list output
}.

Definition initial (t : table) : state :=
  {| conn_open := false; cursor_open := false; committed := t; working := t;
     total_rows := 0; chunk_num := 0; error_count := 0; out := [] |}.

Definition set_conn_open (b : bool) (s : state) : state :=
  {| conn_open := b; cursor_open := cursor_open s; committed := committed s;
     working := working s; total_rows := total_rows s;
     chunk_num := chunk_num s; error_count := error_count s; out := out s |}.

Definition set_cursor_open (b : bool) (s : state) : state :=
  {| conn_open := conn_open s; cursor_open := b; committed := committed s;
     working := working s; total_rows := total_rows s;
     chunk_num := chunk_num s; error_count := error_count s; out := out s |}.

Definition set_committed (t : table) (s : state) : state :=
  {| conn_open := conn_open s; cursor_open := cursor_open s; committed := t;
     working := working s; total_rows := total_rows s;
     chunk_num := chunk_num s; error_count := error_count s; out := out s |}.

Definition set_working (t : table) (s : state) : state :=
  {| conn_open := conn_open s; cursor_open := cursor_open s;
     committed := committed s; working := t; total_rows := total_rows s;
     chunk_num := chunk_num s; error_count := error_count s; out := out s |}.

Definition set_total_rows (n : nat) (s : state) : state :=
  {| conn_open := conn_open s; cursor_open := cursor_open s;
     committed := committed s; working := working s; total_rows := n;
     chunk_num := chunk_num s; error_count := error_count s; out := out s |}.

Definition set_chunk_num (n : nat) (s : state) : state :=
  {| conn_open := conn_open s; cursor_open := cursor_open s;
     committed := committed s; working := working s;
     total_rows := total_rows s; chunk_num := n;
     error_count := error_count s; out := out s |}.

Definition set_error_count (n : nat) (s : state) : state :=
  {| conn_open := conn_open s; cursor_open := cursor_open s;
     committed := committed s; working := working s;
     total_rows := total_rows s; chunk_num := chunk_num s;
     error_count := n; out := out s |}.

Definition set_out (o : list output) (s : state) : state :=
  {| conn_open := conn_open s; cursor_open := cursor_open s;
     committed := committed s; working := working s;
     total_rows := total_rows s; chunk_num := chunk_num s;
     error_count := error_count s; out := o |}.

(** ** A state-and-exception monad for [main] *)

Definition M (A : Type) : Type := state -> state * result A.

Definition ret {A} (a : A) : M A := fun s => (s, Ok a).

Definition bind {A B} (m : M A) (k : A -> M B) : M B :=
  fun s =>
    match m s with
    | (s', Ok a) => k a s'
    | (s', Raise e) => (s', Raise e)
    end.

Definition raise {A} (e : exn) : M A := fun s => (s, Raise e).

Definition gets {A} (f : state -> A) : M A := fun s => (s, Ok (f s)).

Definition modify (f : state -> state) : M unit := fun s => (f s, Ok tt).

(** [try: m  except Exception as e: h e] *)
Definition try_except {A} (m : M A) (h : exn -> M A) : M A :=
  fun s =>
    match m s with
    | (s', Ok a) => (s', Ok a)
    | (s', Raise e) => h e s'
    end.

(** [try: m  finally: f]: [f] runs on both exits; an exception of [m] is
    raised again after it. *)
Definition try_finally {A} (m : M A) (f : M unit) : M A :=
  fun s =>
    match m s with
    | (s', Ok a) =>
        match f s' with
        | (s'', Ok _) => (s'', Ok a)
        | (s'', Raise e) => (s'', Raise e)
        end
    | (s', Raise e) =>
        match f s' with
        | (s'', Ok _) => (s'', Raise e)
        | (s'', Raise e') => (s'', Raise e')
        end
    end.

Declare Scope etl_scope.
Delimit Scope etl_scope with etl.
Notation "x <- m ;; k" := (bind m (fun x => k))
  (at level 61, m at next level, right associativity) : etl_scope.
Notation "m ;; k" := (bind m (fun _ => k))
  (at level 61, right associativity) : etl_scope.

Definition print (o : output) : M unit :=
  modify (fun s => set_out (out s ++ [o]) s).

Definition when (b : bool) (m : M unit) : M unit :=
  if b then m else ret tt.

(** ** etl.py: [main] *)

Section Main.
Context `{Parser} (w : world).
Local Open Scope etl_scope.

(** [pymysql.connect] with the settings of [DB_CONFIG] *)
Definition connect : M unit :=
  fun s =>
    match connect_error w with
    | Some e => (s, Raise e)
    | None => (set_conn_open true s, Ok tt)
    end.

(** [conn.cursor()], which only builds the cursor object. *)
Definition cursor : M unit := modify (set_cursor_open true).

(** [cursor.execute("REPLACE INTO ...", p)] for the row at position [i]
    of the current chunk. *)
Definition execute (i : nat) (p : params) : M unit :=
  fun s =>
    match execute_error w (chunk_num s) i with
    | Some e => (s, Raise e)
    | None => (set_working (replace_into (working s) p) s, Ok tt)
    end.

(** [conn.commit()] *)
Definition commit : M unit :=
  fun s =>
    match commit_error w (chunk_num s) with
    | Some e => (s, Raise e)
    | None => (set_committed (working s) s, Ok tt)
    end.

(** [conn.rollback()]: the open transaction is dropped.  (So it is on the
    server when the connection is lost instead.) *)
Definition rollback : M unit := modify (fun s => set_working (committed s) s).

(** [cursor.close()] and [conn.close()]: whatever they report, the cursor
    and the connection are released afterwards. *)
Definition cursor_close : M unit := modify (set_cursor_open false).
Definition conn_close : M unit := modify (set_conn_open false).

(** [pd.read_csv(CSV_FILE, nrows=1)] *)
Definition read_sample : M pd.DataFrame := fun s => (s, sample_read w).

(** Lines 77-98: one row of the chunk. *)
Definition write_row (i : nat) (row : pd.Row) : M unit :=
  try_except
    (execute i (bind_params row))
    (fun e =>
       modify (fun s => set_error_count (error_count s + 1) s) ;;
       n <- gets error_count ;;
       when (Nat.leb n 10)
         (print (PrRowError (safe_value (pd.get row "Unique Key" VNone)) e))).

(** [for _, row in chunk.iterrows(): ...] *)
Fixpoint for_rows (i : nat) (rows : list pd.Row) : M unit :=
  match rows with
  | [] => ret tt
  | row :: rows' => write_row i row ;; for_rows (S i) rows'
  end.

(** Lines 69-102: the body of the loop over chunks. *)
Definition process_chunk (chunk : pd.DataFrame) : M unit :=
  modify (fun s => set_chunk_num (chunk_num s + 1) s) ;;
  n <- gets chunk_num ;;
  print (PrProcessing n (pd.len chunk)) ;;
  let chunk := clean_data chunk in
  for_rows 0 (pd.iterrows chunk) ;;
  commit ;;
  modify (fun s => set_total_rows (total_rows s + pd.len chunk) s) ;;
  t <- gets total_rows ;;
  print (PrInserted (pd.len chunk) t).

(** [for chunk in pd.read_csv(CSV_FILE, chunksize=CHUNK_SIZE): ...] *)
Fixpoint for_chunks (cs : list pd.DataFrame) : M unit :=
  match cs with
  | [] =>
      match reader_error w with
      | Some e => raise e
      | None => ret tt
      end
  | chunk :: cs' => process_chunk chunk ;; for_chunks cs'
  end.

(** Lines 104-115: the summary. *)
Definition report (start : float) : M unit :=
  let duration := float64.sub (end_time w) start in
  t <- gets total_rows ;;
  let speed := rows_per_sec t duration in
  print (PrRule true) ;;
  print PrComplete ;;
  print (PrTotal t) ;;
  n <- gets error_count ;;
  print (PrErrors n) ;;
  print (PrDuration (format_2f duration)) ;;
  print (PrSpeed (format_2f speed)) ;;
  print (PrRule false).

(** Lines 62-115: what stands under [try:]. *)
Definition body (start : float) : M unit :=
  sample_df <- read_sample ;;
  print (PrColumns (pd.columns sample_df)) ;;
  print PrBlank ;;
  for_chunks (chunks w) ;;
  report start.

(** Lines 117-121: [except Exception as e:] *)
Definition on_fatal (e : exn) : M unit :=
  print (PrFatal e) ;;
  print PrTraceback ;;
  rollback.

Definition main : M unit :=
  print PrStarting ;;
  let start := start_time w in
  connect ;;
  cursor ;;
  modify (set_total_rows 0) ;;
  modify (set_chunk_num 0) ;;
  modify (set_error_count 0) ;;
  try_finally
    (try_except (body start) on_fatal)
    (cursor_close ;; conn_close).

(** One run of the loader against a sink that holds [t]. *)
Definition run (t : table) : state * result unit := main (initial t).

(** Lines 126-127, [if __name__ == "__main__": main()]: an exception that
    leaves [main] ends the process, and the interpreter writes its
    traceback. *)
Definition script : M unit :=
  try_except main
    (fun e => print PrTraceback ;; print (PrUncaught e) ;; raise e).

End Main.

(** ** app/main.py: the search page

    The part of [index] that does not talk to the server: the [WHERE]
    clause and its arguments, the two query texts, and the page
    arithmetic. *)

Module app.

(** A value handed to [cursor.execute] next to the query text. *)
Inductive sql_arg : Type :=
| SqlStr (s : string)
| SqlInt (z : Z).

Definition per_page : Z := 50.

(** The truth value of a [str] in an [if]. *)
Definition truthy (s : string) : bool := negb (String.eqb s "").

(** Lines 34-49: [where_clauses] and [params] after the four tests. *)
Definition where_clauses_and_params
    (date_from date_to borough complaint_type : string)
  : list string * list sql_arg :=
  let where_clauses := [] in
  let params := [] in
  let '(where_clauses, params) :=
    if truthy date_from
    then (where_clauses ++ ["created_date >= %s"],
          params ++ [SqlStr date_from])
    else (where_clauses, params) in
  let '(where_clauses, params) :=
    if truthy date_to
    then (where_clauses ++ ["created_date <= %s"],
          params ++ [SqlStr date_to])
    else (where_clauses, params) in
  let '(where_clauses, params) :=
    if truthy borough && negb (String.eqb borough "ALL")
    then (where_clauses ++ ["borough = %s"], params ++ [SqlStr borough])
    else (where_clauses, params) in
  let '(where_clauses, params) :=
    if truthy complaint_type
    then (where_clauses ++ ["complaint_type LIKE %s"],
          params ++ [SqlStr ("%" ++ complaint_type ++ "%")])
    else (where_clauses, params) in
  (where_clauses, params).

Definition where_clauses (date_from date_to borough complaint_type : string)
  : list string :=
  fst (where_clauses_and_params date_from date_to borough complaint_type).

Definition params (date_from date_to borough complaint_type : string)
  : list sql_arg :=
  snd (where_clauses_and_params date_from date_to borough complaint_type).

(** Line 51 *)
Definition where_sql (where_clauses : list string) : string :=
  match where_clauses with
  | [] => "1=1"
  | _ => String.concat " AND " where_clauses
  end.

(** Line 54.  (The text is cut in two after [COUNT(].) *)
Definition count_query (where_sql : string) : string :=
  ("SELECT COUNT(" ++ "*) as total FROM service_requests WHERE "
   ++ where_sql)%string.

(** Line 57 *)
Definition total_pages (total_records : Z) : Z :=
  ((total_records + per_page - 1) / per_page)%Z.

(** Line 60 *)
Definition offset (page : Z) : Z := ((page - 1) * per_page)%Z.

Definition nl : string := String (ascii_of_nat 10) "".

(** Lines 61-68 *)
Definition data_query (where_sql : string) : string :=
  (nl
   ++ "        SELECT unique_key, created_date, closed_date, agency, complaint_type," ++ nl
   ++ "               descriptor, borough, latitude, longitude" ++ nl
   ++ "        FROM service_requests" ++ nl
   ++ "        WHERE " ++ where_sql ++ nl
   ++ "        ORDER BY created_date DESC" ++ nl
   ++ "        LIMIT %s OFFSET %s" ++ nl
   ++ "    ")%string.

(** Line 69: the arguments of the data query. *)
Definition data_params (params : list sql_arg) (page : Z) : list sql_arg :=
  params ++ [SqlInt per_page; SqlInt (offset page)].

(** The [%s] conversions of a query text, one per argument that
    [cursor.execute] formats into it. *)
Fixpoint placeholders (query : string) : nat :=
  match query with
  | EmptyString => 0
  | String c rest =>
      match rest with
      | String d rest' =>
          if Ascii.eqb c "%" && Ascii.eqb d "s"
          then S (placeholders rest')
          else placeholders rest
      | EmptyString => 0
      end
  end.

(** What the server answers to [LIMIT limit OFFSET offset] over the
    matching rows in their sorted order; a negative offset is refused. *)
Definition limit_offset {A} (limit offset : Z) (rows : list A) : option (list A) :=
  if (offset <? 0)%Z || (limit <? 0)%Z then None
  else Some (firstn (Z.to_nat limit) (skipn (Z.to_nat offset) rows)).

(** The rows shown on a page. *)
Definition results {A} (rows : list A) (page : Z) : option (list A) :=
  limit_offset per_page (offset page) rows.

(** Which of the four filters are set. *)
Definition active_filters (date_from date_to borough complaint_type : string)
  : bool * bool * bool * bool :=
  (truthy date_from, truthy date_to,
   truthy borough && negb (String.eqb borough "ALL"),
   truthy complaint_type).

End app.

(** ** A concrete source and sink, for running the definitions *)

Module Sample.

(** A parser that reads ISO dates, plain decimals and the two infinities,
    and coerces every other text. *)
#[export] Instance parser : Parser.
Proof.
  refine {|
    guess_datetime_format s :=
      option_map (fun ft => format_text (fst ft)) (iso s);
    strptime fmt s :=
      match iso s with
      | Some (f, t) => if String.eqb fmt (format_text f) then Some t else None
      | None => None
      end;
    parse_datetime s := option_map snd (iso s);
    datetime_of_number n :=
      match n with
      | NInt z => Some z
      | NFloat _ => None
      end;
    strptime_number fmt n := None;
    parse_numeric s :=
      match decimal s with
      | Some r => Some r
      | None =>
          if String.eqb s "inf"
          then Some {| fval := float64.inf; as_int := None |}
          else if String.eqb s "-inf"
          then Some {| fval := float64.opp float64.inf; as_int := None |}
          else None
      end |}.
  - intros s f t E. rewrite E. reflexivity.
  - intros s f t E. rewrite E. destruct f; reflexivity.
  - intros s f t g E Hg. rewrite E. destruct f, g; try reflexivity; contradiction.
  - intros s f t E. rewrite E. reflexivity.
  - intros s r E. rewrite E. reflexivity.
Defined.

(** The double nearest to 73.9, negated. *)
Definition lon : float := S754_finite true 5200250194729370 (-46).

(** The three-row extract of the end-to-end scenario, as [read_csv] hands
    it over: empty fields are [NaN], the Latitude column holds text
    because of its ["bad"] field, and the third row repeats key 1 with
    another borough. *)
Definition extract : pd.DataFrame :=
  {| pd.nrows := 3;
     pd.cols :=
       [("Unique Key", [VInt 1; VInt 2; VInt 1]);
        ("Created Date",
          [VStr "2025-01-05"; VStr "2025-01-06"; VStr "2025-01-07"]);
        ("Closed Date", [VNaN; VStr "2025-01-07"; VNaN]);
        ("Agency", [VStr "DOT"; VStr "NYPD"; VStr "DOT"]);
        ("Complaint Type", [VStr "Noise"; VStr "Theft"; VStr "Noise"]);
        ("Descriptor", [VStr "Loud"; VNaN; VStr "Loud"]);
        ("Borough", [VStr "BRONX"; VNaN; VStr "QUEENS"]);
        ("Latitude", [VStr "40.8"; VStr "bad"; VStr "40.8"]);
        ("Longitude", [VFloat lon; VNaN; VFloat lon])] |}.

(** A chunk without a Borough column. *)
Definition no_borough : pd.DataFrame :=
  {| pd.nrows := 2;
     pd.cols :=
       [("Unique Key", [VInt 7; VInt 8]);
        ("Agency", [VStr "DOT"; VNaN])] |}.

(** A chunk whose only Borough field is three blanks. *)
Definition blank_borough : pd.DataFrame :=
  {| pd.nrows := 1;
     pd.cols := [("Unique Key", [VInt 9]); ("Borough", [VStr "   "])] |}.


Definition nothing_fails : nat -> nat -> option exn := fun _ _ => None.

(** A run over the extract in which nothing fails and ten seconds pass. *)
Definition calm : world :=
  {| connect_error := None;
     sample_read := Ok extract;
     chunks := [extract];
     reader_error := None;
     execute_error := nothing_fails;
     commit_error := fun _ => None;
     start_time := float64.of_int 1736035200;
     end_time := float64.of_int 1736035210 |}.

(** The server rejects the second row of the first chunk. *)
Definition one_bad_row : world :=
  {| connect_error := None;
     sample_read := Ok extract;
     chunks := [extract; no_borough];
     reader_error := None;
     execute_error := fun cn i =>
       if Nat.eqb cn 1 && Nat.eqb i 1 then Some "Data too long" else None;
     commit_error := fun _ => None;
     start_time := float64.of_int 1736035200;
     end_time := float64.of_int 1736035210 |}.

(** The commit of the second chunk fails. *)
Definition lost_at_commit : world :=
  {| connect_error := None;
     sample_read := Ok extract;
     chunks := [extract; no_borough; blank_borough];
     reader_error := None;
     execute_error := nothing_fails;
     commit_error := fun cn =>
       if Nat.eqb cn 2 then Some "Lost connection" else None;
     start_time := float64.of_int 1736035200;
     end_time := float64.of_int 1736035210 |}.

(** The source file is not there. *)
Definition no_file : world :=
  {| connect_error := None;
     sample_read := Raise "No such file or directory";
     chunks := [];
     reader_error := Some "No such file or directory";
     execute_error := nothing_fails;
     commit_error := fun _ => None;
     start_time := float64.of_int 1736035200;
     end_time := float64.of_int 1736035210 |}.

(** The server cannot be reached. *)
Definition no_server : world :=
  {| connect_error := Some "Can't connect to MySQL server";
     sample_read := Ok extract;
     chunks := [extract];
     reader_error := None;
     execute_error := nothing_fails;
     commit_error := fun _ => None;
     start_time := float64.of_int 1736035200;
     end_time := float64.of_int 1736035210 |}.

(** Every write is rejected. *)
Definition all_rejected : world :=
  {| connect_error := None;
     sample_read := Ok extract;
     chunks := [extract; extract; extract; extract; extract];
     reader_error := None;
     execute_error := fun _ _ => Some "Lock wait timeout exceeded";
     commit_error := fun _ => None;
     start_time := float64.of_int 1736035200;
     end_time := float64.of_int 1736035210 |}.

End Sample.

(** * Definitions used to state the properties *)

(** ** Cleaning, column by column and cell by cell *)

(** What the Borough statement of [clean_data] makes of one cell. *)
Definition fix_borough_cell (v : value) : value :=
  match v with
  | VNone | VNaN | VNaT => VStr "UNKNOWN"
  | VStr s => if String.eqb s "" then VStr "UNKNOWN" else VStr s
  | _ => v
  end.

Definition is_date_column (c : string) : Prop :=
  c = "Created Date" \/ c = "Closed Date".

Definition is_coordinate_column (c : string) : Prop :=
  c = "Latitude" \/ c = "Longitude".

Section CleaningShape.
Context `{Parser}.
Import pd.

Definition fix_borough (s : Series) : Series :=
  replace "" "UNKNOWN" (fillna (VStr "UNKNOWN") s).

(** What [to_datetime] makes of one cell of the column [col]. *)
Definition date_cell (col : Series) (v : value) : value :=
  match guess_datetime_format_for_array col with
  | Some fmt => strptime_cell fmt v
  | None => to_datetime_cell v
  end.

(** What [clean_data] makes of the column labelled [c]. *)
Definition clean_column (c : string) (s : Series) : Series :=
  map none_if_na
    (if String.eqb c "Borough" then fix_borough s
     else if String.eqb c "Created Date" then to_datetime s
     else if String.eqb c "Closed Date" then to_datetime s
     else if String.eqb c "Latitude" then to_numeric s
     else if String.eqb c "Longitude" then to_numeric s
     else s).

End CleaningShape.

(** C4, as stated: a Borough cell that is missing or made of blanks only
    would be cleaned to ["UNKNOWN"]. *)
Definition is_blank (c : ascii) : bool :=
  Ascii.eqb c " " || Ascii.eqb c "009".

Definition whitespace_only (s : string) : bool :=
  forallb is_blank (list_ascii_of_string s).

(** ** What the loops of [main] write, count and print *)

Definition load (t : table) (ps : list params) : table :=
  fold_left replace_into ps t.

Definition print_failure (f : value * exn) : output :=
  PrRowError (fst f) (snd f).

(** How many more row errors are printed once [n] have been counted. *)
Definition error_budget (n : nat) : nat := 10 - n.
Arguments error_budget : simpl never.

(** The state in which the rows of a chunk are written: the chunk is
    counted and announced. *)
Definition before_rows (chunk : pd.DataFrame) (s : state) : state :=
  set_out (out s ++ [PrProcessing (chunk_num s + 1) (pd.len chunk)])
          (set_chunk_num (chunk_num s + 1) s).

Definition sum_len (cs : list pd.DataFrame) : nat :=
  list_sum (map pd.len cs).

(** The state at the [try:], once connected. *)
Definition entry (t : table) : state :=
  {| conn_open := true; cursor_open := true; committed := t; working := t;
     total_rows := 0; chunk_num := 0; error_count := 0;
     out := [PrStarting] |}.

(** The state [main] ends in when [body] raised [e] in state [s]. *)
Definition fatal_exit (e : exn) (s : state) : state :=
  {| conn_open := false; cursor_open := false;
     committed := committed s; working := committed s;
     total_rows := total_rows s; chunk_num := chunk_num s;
     error_count := error_count s;
     out := out s ++ [PrFatal e; PrTraceback] |}.

(** The state [main] ends in when [body] returned in state [s]. *)
Definition normal_exit (s : state) : state :=
  set_conn_open false (set_cursor_open false s).

(** The seven lines of the summary. *)
Definition summary (total errors : nat) (duration : float) : list output :=
  [PrRule true; PrComplete; PrTotal total; PrErrors errors;
   PrDuration (format_2f duration);
   PrSpeed (format_2f (rows_per_sec total duration));
   PrRule false].

Definition announced (d : pd.DataFrame) (s : state) : state :=
  set_out ((out s ++ [PrColumns (pd.columns d)]) ++ [PrBlank]) s.

Section RunStates.
Context `{Parser} (w : world).

(** The parameter tuples of the rows whose [execute] the server accepts,
    in order, for the rows of chunk [cn] from position [i] on. *)
Fixpoint written (cn i : nat) (rows : list pd.Row) : list params :=
  match rows with
  | [] => []
  | row :: rows' =>
      match execute_error w cn i with
      | None => bind_params row :: written cn (S i) rows'
      | Some _ => written cn (S i) rows'
      end
  end.

(** The rejected rows, in order: bound key and error. *)
Fixpoint failures (cn i : nat) (rows : list pd.Row) : list (value * exn) :=
  match rows with
  | [] => []
  | row :: rows' =>
      match execute_error w cn i with
      | None => failures cn (S i) rows'
      | Some e =>
          (safe_value (pd.get row "Unique Key" VNone), e)
            :: failures cn (S i) rows'
      end
  end.

(** The state the row loop leaves. *)
Definition after_rows (i : nat) (rows : list pd.Row) (s : state) : state :=
  {| conn_open := conn_open s;
     cursor_open := cursor_open s;
     committed := committed s;
     working := load (working s) (written (chunk_num s) i rows);
     total_rows := total_rows s;
     chunk_num := chunk_num s;
     error_count := error_count s + length (failures (chunk_num s) i rows);
     out := out s ++ map print_failure
                      (firstn (error_budget (error_count s))
                              (failures (chunk_num s) i rows)) |}.

Definition rows_done (chunk : pd.DataFrame) (s : state) : state :=
  after_rows 0 (pd.iterrows (clean_data chunk)) (before_rows chunk s).

(** The state after a chunk whose commit succeeded. *)
Definition after_chunk (chunk : pd.DataFrame) (s : state) : state :=
  let s2 := rows_done chunk s in
  let n := pd.len (clean_data chunk) in
  set_out (out s2 ++ [PrInserted n (total_rows s2 + n)])
          (set_total_rows (total_rows s2 + n)
                          (set_committed (working s2) s2)).

Fixpoint after_chunks (cs : list pd.DataFrame) (s : state) : state :=
  match cs with
  | [] => s
  | chunk :: cs' => after_chunks cs' (after_chunk chunk s)
  end.

(** The table after the accepted writes of chunk number [cn], and after
    those of a sequence of chunks numbered from [cn] on. *)
Definition load_chunk (cn : nat) (t : table) (chunk : pd.DataFrame) : table :=
  load t (written cn 0 (pd.iterrows (clean_data chunk))).

Fixpoint load_chunks (cn : nat) (t : table) (cs : list pd.DataFrame) : table :=
  match cs with
  | [] => t
  | chunk :: cs' => load_chunks (S cn) (load_chunk cn t chunk) cs'
  end.

Definition guarded : M unit :=
  try_finally (try_except (body w (start_time w)) (on_fatal))
              (bind cursor_close (fun _ => conn_close)).

End RunStates.

Definition is_row_error (o : output) : bool :=
  match o with
  | PrRowError _ _ => true
  | _ => false
  end.

Definition row_errors (l : list output) : list output :=
  filter is_row_error l.

(** The printed row errors keep pace with the counter up to ten. *)
Definition errors_capped (s : state) : Prop :=
  length (row_errors (out s)) = Nat.min (error_count s) 10.

Definition borough_filled (p : params) : Prop :=
  borough p <> VNone /\ borough p <> VStr "" /\ pd.isna (borough p) = false.

(** Every row of the table was there before the run or has its borough
    filled in. *)
Definition stored_boroughs_filled (t : table) (s : state) : Prop :=
  forall r, In r (committed s) \/ In r (working s) -> In r t \/ borough_filled r.

(** ** What a table holds after a sequence of writes *)

(** Some write of [ps] carries the key of row [r]. *)
Definition written_key (ps : list params) (r : params) : bool :=
  existsb (fun p => has_key (unique_key p) r) ps.

(** The writes of [ps] that no later write of [ps] replaces. *)
Fixpoint last_writes (ps : list params) : list params :=
  match ps with
  | [] => []
  | p :: ps' =>
      if written_key ps' p then last_writes ps' else p :: last_writes ps'
  end.

(** No two rows of the table share a key. *)
Definition unique_keys (t : table) : Prop := NoDup (map unique_key t).

Section RunTotals.
Context `{Parser} (w : world).

(** The accepted writes and the rejected rows of the chunks [cs], numbered
    from [cn] on, in the order of the run. *)
Fixpoint all_written (cn : nat) (cs : list pd.DataFrame) : list params :=
  match cs with
  | [] => []
  | chunk :: cs' =>
      written w cn 0 (pd.iterrows (clean_data chunk)) ++ all_written (S cn) cs'
  end.

Fixpoint all_failures (cn : nat) (cs : list pd.DataFrame) : list (value * exn) :=
  match cs with
  | [] => []
  | chunk :: cs' =>
      failures w cn 0 (pd.iterrows (clean_data chunk)) ++ all_failures (S cn) cs'
  end.

End RunTotals.

(** The line that says how a run ended. *)
Definition is_verdict (o : output) : bool :=
  match o with
  | PrComplete | PrFatal _ => true
  | _ => false
  end.

(** A cell of a cleaned float64 column. *)
Definition is_float_or_None (v : value) : bool :=
  match v with
  | VNaN => false
  | VFloat _ | VNone => true
  | _ => false
  end.

(** A float that is a number, with the sign bit [s]. *)
Definition signed_as (s : bool) (x : float) : Prop :=
  float64.is_nan x = false /\ float64.signbit x = s.

(** A cell of a cleaned date column. *)
Definition is_timestamp_or_None (v : value) : bool :=
  match v with
  | VTimestamp _ | VNone => true
  | _ => false
  end.

(** The five columns [clean_data] has a statement for. *)
Definition cleaned_columns : list string :=
  ["Borough"; "Created Date"; "Closed Date"; "Latitude"; "Longitude"].

(** The cases of a cell, the floats by their kind. *)
Ltac cases v := destruct v as [ | | ? | [ ? | ? | | ? ? ? ] | ? | ? ].

(** * Properties *)

Lemma value_eqb_eq a b : value_eqb a b = true <-> a = b.
Proof.
  unfold value_eqb. destruct (value_eq_dec a b); split; congruence.
Qed.

Lemma value_eqb_refl a : value_eqb a a = true.
Proof. apply value_eqb_eq. reflexivity. Qed.

(** ** Doubles: signs and NaN *)

Section DoubleFacts.
Import float64.

Lemma shr_m_of_loc m l : shr_m (shr_record_of_loc m l) = m.
Proof. destruct l as [|[]]; reflexivity. Qed.

Lemma shr_1_nonneg mrs : (0 <= shr_m mrs)%Z -> (0 <= shr_m (shr_1 mrs))%Z.
Proof.
  destruct mrs as [m r s]. simpl.
  destruct m as [|[p|p|]|[p|p|]]; simpl; lia.
Qed.

Lemma iter_shr_1_nonneg p : forall mrs,
  (0 <= shr_m mrs)%Z -> (0 <= shr_m (iter_pos shr_1 p mrs))%Z.
Proof.
  induction p as [p IH|p IH|]; intros mrs Hm; simpl.
  - apply IH, IH. now apply shr_1_nonneg.
  - now apply IH, IH.
  - now apply shr_1_nonneg.
Qed.

Lemma shr_fexp_nonneg m e l :
  (0 <= m)%Z -> (0 <= shr_m (fst (shr_fexp prec emax m e l)))%Z.
Proof.
  intros Hm. unfold shr_fexp, shr.
  match goal with
  | |- context [match ?n with Z0 => _ | Zpos _ => _ | Zneg _ => _ end] =>
      destruct n
  end; simpl; rewrite ?shr_m_of_loc; try exact Hm.
  apply iter_shr_1_nonneg. now rewrite shr_m_of_loc.
Qed.

Lemma round_nearest_even_nonneg m l :
  (0 <= m)%Z -> (0 <= round_nearest_even m l)%Z.
Proof.
  intros Hm. unfold round_nearest_even.
  destruct l as [|[]]; try exact Hm.
  - destruct (Z.even m); [exact Hm|]. change (0 <= m + 1)%Z. lia.
  - change (0 <= m + 1)%Z. lia.
Qed.

(** Rounding keeps the sign it is given and yields a number. *)
Lemma binary_round_aux_signed sx mx ex lx :
  (0 <= mx)%Z -> signed_as sx (binary_round_aux prec emax sx mx ex lx).
Proof.
  intros Hm. unfold binary_round_aux.
  pose proof (shr_fexp_nonneg mx ex lx Hm) as H1.
  destruct (shr_fexp prec emax mx ex lx) as [mrs' e']. simpl in H1.
  pose proof (shr_fexp_nonneg _ e' loc_Exact
                (round_nearest_even_nonneg _ (loc_of_shr_record mrs') H1)) as H2.
  destruct (shr_fexp prec emax _ e' loc_Exact) as [mrs'' e'']. simpl in H2.
  destruct (shr_m mrs'') as [|m|m].
  - now split.
  - destruct (Z.leb e'' (Z.sub emax prec)); now split.
  - lia.
Qed.

Lemma of_int_signed z : (0 <= z)%Z -> signed_as false (of_int z).
Proof.
  intros Hz. unfold of_int, binary_normalize.
  destruct z as [|m|m]; [now split | | lia].
  unfold binary_round.
  destruct (shl_align m 0 _) as [mz ez].
  apply binary_round_aux_signed. lia.
Qed.

Lemma div_eucl_nonneg a b :
  (0 <= a)%Z -> (0 < b)%Z -> (0 <= fst (Z.div_eucl a b))%Z.
Proof.
  intros Ha Hb. pose proof (Z.div_pos a b Ha Hb) as H. unfold Z.div in H.
  now destruct (Z.div_eucl a b).
Qed.

(** The quotient of two numbers without sign bit has none either; it is a
    number unless both are infinite or both are zero. *)
Lemma div_signed a b :
  signed_as false a -> signed_as false b ->
  is_finite a = true \/ is_finite b = true ->
  (a = zero -> b <> zero) ->
  signed_as false (div a b).
Proof.
  intros [Ha Sa] [Hb Sb] Hfin Hz.
  destruct a as [sa|sa| |sa ma ea]; try discriminate;
    destruct b as [sb|sb| |sb mb eb]; try discriminate;
    simpl in Sa, Sb; subst sa sb; try (now split).
  - exfalso. now apply Hz.
  - destruct Hfin; discriminate.
  - unfold div, SFdiv.
    pose proof (div_eucl_nonneg) as Hq.
    unfold SFdiv_core_binary.
    change IntDef.Z.div_eucl with Z.div_eucl.
    change IntDef.Z.shiftl with Z.shiftl.
    match goal with
    | |- context [Z.div_eucl ?a ?b] =>
        specialize (Hq a b); destruct (Z.div_eucl a b) as [q r]
    end.
    simpl in Hq. apply binary_round_aux_signed. apply Hq; [|lia].
    match goal with
    | |- context [match ?s with Z0 => _ | Zpos _ => _ | Zneg _ => _ end] =>
        destruct s
    end; try lia.
    apply Z.shiftl_nonneg. lia.
Qed.






End DoubleFacts.

(** ** Frames: lookups, columns and shapes *)

Module pd_facts.
Import pd.

Lemma in_columns_lookup c df :
  in_columns c df =
  match lookup_col c (cols df) with Some _ => true | None => false end.
Proof.
  unfold in_columns, columns. induction (cols df) as [|[c' s] l IH]; simpl.
  - reflexivity.
  - destruct (String.eqb c c'); simpl; [reflexivity | exact IH].
Qed.

Lemma lookup_overwrite c c' s l :
  lookup_col c' (map (fun cs : string * Series =>
                        if String.eqb c (fst cs) then (c, s) else cs) l) =
  if String.eqb c' c
  then match lookup_col c l with Some _ => Some s | None => None end
  else lookup_col c' l.
Proof.
  induction l as [|[k x] l IH]; simpl.
  - destruct (String.eqb c' c); reflexivity.
  - destruct (String.eqb_spec c k) as [->|Hck]; simpl.
    + destruct (String.eqb_spec c' k) as [->|Hc'k]; [reflexivity|].
      exact IH.
    + destruct (String.eqb_spec c' k) as [->|Hc'k].
      * destruct (String.eqb_spec k c) as [->|_]; [congruence | reflexivity].
      * exact IH.
Qed.

Lemma lookup_update c c' f df :
  lookup_col c' (cols (update c f df)) =
  if String.eqb c' c
  then option_map f (lookup_col c (cols df))
  else lookup_col c' (cols df).
Proof.
  unfold update, getitem. rewrite in_columns_lookup.
  destruct (lookup_col c (cols df)) as [s0|] eqn:E.
  - unfold setitem; simpl. rewrite in_columns_lookup, E.
    rewrite lookup_overwrite, E. reflexivity.
  - destruct (String.eqb_spec c' c) as [->|_]; [now rewrite E | reflexivity].
Qed.

Lemma nrows_update c f df : nrows (update c f df) = nrows df.
Proof. unfold update. destruct (in_columns c df); reflexivity. Qed.

Lemma columns_update c f df : columns (update c f df) = columns df.
Proof.
  unfold update. destruct (in_columns c df) eqn:E; [|reflexivity].
  unfold setitem, columns; simpl. rewrite E, map_map.
  apply map_ext. intros [k x]; simpl.
  destruct (String.eqb_spec c k) as [->|_]; reflexivity.
Qed.

Lemma lookup_col_In c l s : lookup_col c l = Some s -> In (c, s) l.
Proof.
  induction l as [|[k x] l IH]; simpl; [discriminate|].
  destruct (String.eqb_spec c k) as [->|_].
  - intros [= ->]. now left.
  - intros E. right. now apply IH.
Qed.

Lemma well_formed_update c f df :
  (forall s, length (f s) = length s) ->
  well_formed df -> well_formed (update c f df).
Proof.
  intros Hf Hwf. unfold update, getitem. rewrite in_columns_lookup.
  destruct (lookup_col c (cols df)) as [s0|] eqn:E; [|exact Hwf].
  unfold well_formed, setitem; simpl. rewrite in_columns_lookup, E.
  apply Forall_map. unfold well_formed in Hwf.
  rewrite Forall_forall in Hwf |- *. intros [k x] Hin; simpl.
  destruct (String.eqb c k); simpl.
  - rewrite Hf. apply (Hwf (c, s0)). now apply lookup_col_In.
  - apply (Hwf (k, x) Hin).
Qed.

Lemma lookup_replace_nan_None c df :
  lookup_col c (cols (replace_nan_None df)) =
  option_map (map none_if_na) (lookup_col c (cols df)).
Proof.
  unfold replace_nan_None; simpl.
  induction (cols df) as [|[k x] l IH]; simpl; [reflexivity|].
  destruct (String.eqb c k); [reflexivity | exact IH].
Qed.

Lemma length_fillna v s : length (fillna v s) = length s.
Proof. apply length_map. Qed.

Lemma length_replace a b s : length (replace a b s) = length s.
Proof. apply length_map. Qed.

Lemma length_to_datetime `{Parser} s : length (to_datetime s) = length s.
Proof.
  unfold to_datetime.
  destruct (guess_datetime_format_for_array s); apply length_map.
Qed.

Lemma ints_cells `{Parser} s : forall zs,
  ints s = Some zs ->
  length zs = length s /\
  forall i v, nth_error s i = Some v ->
              exists z, int_of_cell v = Some z /\ nth_error zs i = Some z.
Proof.
  induction s as [|u s IH]; simpl; intros zs E.
  - injection E as <-. split; [reflexivity|]. intros [|i] v; discriminate.
  - destruct (int_of_cell u) as [z|] eqn:Eu; [|discriminate].
    destruct (ints s) as [zs'|]; [|discriminate]. injection E as <-.
    destruct (IH zs' eq_refl) as [Hl Hc]. split; [simpl; now rewrite Hl|].
    intros [|i] v; simpl.
    + intros [= <-]. now exists z.
    + apply Hc.
Qed.

Lemma length_to_numeric `{Parser} s : length (to_numeric s) = length s.
Proof.
  unfold to_numeric, floats. destruct (ints s) as [zs|] eqn:E.
  - rewrite length_map. now apply ints_cells.
  - now rewrite !length_map.
Qed.

(** A cell of [to_numeric s] is the int of the cell it was read from, or,
    when some cell of the column has no int, its float. *)
Lemma nth_error_to_numeric `{Parser} s i v :
  nth_error s i = Some v ->
  (exists zs z, ints s = Some zs /\ int_of_cell v = Some z /\
                nth_error (to_numeric s) i = Some (VInt z)) \/
  (ints s = None /\
   nth_error (to_numeric s) i = Some (VFloat (float_of_cell v))).
Proof.
  intros Hv. unfold to_numeric, floats. destruct (ints s) as [zs|] eqn:E.
  - left. destruct (ints_cells s zs E) as [_ Hc].
    destruct (Hc i v Hv) as [z [Hz Hn]]. exists zs, z.
    split; [reflexivity|]. split; [exact Hz|].
    now rewrite nth_error_map, Hn.
  - right. split; [reflexivity|]. now rewrite !nth_error_map, Hv.
Qed.

Lemma to_datetime_cells `{Parser} s : to_datetime s = map (date_cell s) s.
Proof.
  unfold to_datetime, date_cell.
  now destruct (guess_datetime_format_for_array s).
Qed.

Lemma date_cell_kind `{Parser} col v :
  date_cell col v = VNaT \/ exists t, date_cell col v = VTimestamp t.
Proof.
  unfold date_cell.
  destruct (guess_datetime_format_for_array col); cases v; simpl;
    repeat match goal with
           | |- context [datetime_or_NaT ?o] => destruct o; simpl
           end;
    first [now left | right; eexists; reflexivity].
Qed.

Lemma length_iterrows df : length (iterrows df) = len df.
Proof. unfold iterrows, len. now rewrite length_map, length_seq. Qed.

(** What [row.get] finds in the row at position [i]. *)
Lemma get_row_at df i c d :
  get (row_at df i) c d =
  match lookup_col c (cols df) with
  | Some s => nth i s VNaN
  | None => d
  end.
Proof.
  unfold row_at. induction (cols df) as [|[k x] l IH]; simpl; [reflexivity|].
  destruct (String.eqb c k); [reflexivity | exact IH].
Qed.

End pd_facts.

(** ** Cleaning, column by column *)

Section CleaningFacts.
Context `{Parser}.
Import pd pd_facts.

Lemma clean_data_updates df :
  clean_data df =
  replace_nan_None
    (update "Longitude" to_numeric
       (update "Latitude" to_numeric
          (update "Closed Date" to_datetime
             (update "Created Date" to_datetime
                (update "Borough" fix_borough df))))).
Proof. reflexivity. Qed.

Lemma lookup_clean_data c df :
  lookup_col c (cols (clean_data df)) =
  option_map (clean_column c) (lookup_col c (cols df)).
Proof.
  rewrite clean_data_updates, lookup_replace_nan_None.
  unfold clean_column.
  repeat (rewrite lookup_update; simpl).
  destruct (String.eqb_spec c "Longitude") as [->|]; simpl;
    [now destruct (lookup_col _ (cols df))|].
  destruct (String.eqb_spec c "Latitude") as [->|]; simpl;
    [now destruct (lookup_col _ (cols df))|].
  destruct (String.eqb_spec c "Closed Date") as [->|]; simpl;
    [now destruct (lookup_col _ (cols df))|].
  destruct (String.eqb_spec c "Created Date") as [->|]; simpl;
    [now destruct (lookup_col _ (cols df))|].
  destruct (String.eqb_spec c "Borough") as [->|]; simpl;
    now destruct (lookup_col _ (cols df)).
Qed.

Lemma nrows_clean_data df : nrows (clean_data df) = nrows df.
Proof.
  rewrite clean_data_updates. unfold replace_nan_None; simpl.
  now rewrite !nrows_update.
Qed.

Lemma columns_replace_nan_None df : columns (replace_nan_None df) = columns df.
Proof.
  unfold replace_nan_None, columns; simpl. rewrite map_map. now apply map_ext.
Qed.

Lemma columns_clean_data df : columns (clean_data df) = columns df.
Proof.
  rewrite clean_data_updates, columns_replace_nan_None.
  now rewrite !columns_update.
Qed.

Lemma well_formed_clean_data df :
  well_formed df -> well_formed (clean_data df).
Proof.
  intros Hwf. rewrite clean_data_updates.
  assert (Hu : well_formed (update "Longitude" to_numeric
    (update "Latitude" to_numeric (update "Closed Date" to_datetime
    (update "Created Date" to_datetime (update "Borough" fix_borough df)))))).
  { repeat (apply well_formed_update;
            [first [apply length_to_numeric | apply length_to_datetime
                   | intros s; unfold fix_borough;
                     now rewrite length_replace, length_fillna]|]).
    exact Hwf. }
  revert Hu. generalize (update "Longitude" to_numeric
    (update "Latitude" to_numeric (update "Closed Date" to_datetime
    (update "Created Date" to_datetime (update "Borough" fix_borough df))))).
  intros d Hd. unfold well_formed, replace_nan_None in *; simpl.
  apply Forall_map. eapply Forall_impl; [|exact Hd].
  intros [k x]; simpl. now rewrite length_map.
Qed.

(** No cell of a cleaned frame is [NaN] or [NaT]. *)
Lemma clean_data_no_marker df c s v :
  In (c, s) (cols (clean_data df)) -> In v s -> v = VNone \/ isna v = false.
Proof.
  rewrite clean_data_updates. unfold replace_nan_None; simpl.
  intros Hin Hv. apply in_map_iff in Hin as [[k x] [E _]].
  simpl in E. injection E as _ <-.
  apply in_map_iff in Hv as [u [<- _]].
  unfold none_if_na. destruct (isna u) eqn:Eu; [now left | now right].
Qed.

Lemma cell_clean_data df c i :
  cell (clean_data df) c i =
  match lookup_col c (cols df) with
  | Some s => nth_error (clean_column c s) i
  | None => None
  end.
Proof.
  unfold cell. rewrite lookup_clean_data.
  now destruct (lookup_col c (cols df)).
Qed.

End CleaningFacts.

(** ** Cleaning, cell by cell *)

Section CellFacts.
Context `{Parser}.
Import pd pd_facts.

Lemma nth_error_clean_borough s i :
  nth_error (clean_column "Borough" s) i =
  option_map fix_borough_cell (nth_error s i).
Proof.
  unfold clean_column, fix_borough, replace, fillna; simpl.
  rewrite !nth_error_map. destruct (nth_error s i) as [v|]; simpl; [|reflexivity].
  f_equal. cases v; simpl; try reflexivity.
  destruct (String.eqb _ ""); reflexivity.
Qed.

Lemma fix_borough_cell_filled v :
  fix_borough_cell v <> VNone /\ fix_borough_cell v <> VStr "" /\
  isna (fix_borough_cell v) = false.
Proof.
  cases v; simpl; repeat split; try discriminate;
    match goal with
    | |- context [String.eqb ?x ""] => destruct (String.eqb_spec x "")
    end;
    first [discriminate | congruence | reflexivity].
Qed.

Lemma nth_error_clean_date c s i :
  is_date_column c ->
  nth_error (clean_column c s) i =
  option_map (fun v => none_if_na (date_cell s v)) (nth_error s i).
Proof.
  intros [-> | ->]; unfold clean_column; simpl;
    rewrite to_datetime_cells, !nth_error_map; now destruct (nth_error s i).
Qed.

Lemma nth_error_clean_coordinate c s i v :
  is_coordinate_column c -> nth_error s i = Some v ->
  (exists zs z, ints s = Some zs /\ int_of_cell v = Some z /\
                nth_error (clean_column c s) i = Some (VInt z)) \/
  (ints s = None /\
   nth_error (clean_column c s) i
   = Some (none_if_na (VFloat (float_of_cell v)))).
Proof.
  intros Hc Hv.
  assert (E : clean_column c s = map none_if_na (to_numeric s))
    by (destruct Hc as [-> | ->]; reflexivity).
  rewrite E, nth_error_map.
  destruct (nth_error_to_numeric s i v Hv) as [[zs [z [Hi [Hz ->]]]] | [Hi ->]].
  - left. now exists zs, z.
  - now right.
Qed.

Lemma length_clean_column c s : length (clean_column c s) = length s.
Proof.
  unfold clean_column. rewrite length_map.
  repeat match goal with
         | |- context [if ?b then _ else _] => destruct b
         end;
    unfold fix_borough;
    now rewrite ?length_replace, ?length_fillna, ?length_to_datetime,
                ?length_to_numeric.
Qed.











Lemma cell_lookup df c i v :
  cell df c i = Some v ->
  exists s, lookup_col c (cols df) = Some s /\ nth_error s i = Some v.
Proof.
  unfold cell. destruct (lookup_col c (cols df)) as [s|]; [|discriminate].
  intros E. now exists s.
Qed.

Lemma In_iterrows df row :
  In row (iterrows df) <-> exists i, i < nrows df /\ row = row_at df i.
Proof.
  unfold iterrows. rewrite in_map_iff. split.
  - intros [i [<- Hi]]. apply in_seq in Hi. exists i. split; [lia | reflexivity].
  - intros [i [Hi ->]]. exists i. split; [reflexivity|]. apply in_seq. lia.
Qed.

(** The borough a cleaned row binds, from the cell it was read from. *)
Lemma borough_of_cleaned_row df i :
  well_formed df -> i < nrows df ->
  borough (bind_params (row_at (clean_data df) i)) =
  match cell df "Borough" i with
  | Some v => fix_borough_cell v
  | None => VStr "UNKNOWN"
  end.
Proof.
  intros Hwf Hi. unfold bind_params; simpl.
  rewrite get_row_at, lookup_clean_data. unfold cell.
  destruct (lookup_col "Borough" (cols df)) as [s|] eqn:E; simpl; [|reflexivity].
  assert (Hlen : length s = nrows df).
  { unfold well_formed in Hwf. rewrite Forall_forall in Hwf.
    apply (Hwf ("Borough", s)). now apply lookup_col_In. }
  destruct (nth_error s i) as [v|] eqn:Ev.
  - assert (Hn : nth_error (clean_column "Borough" s) i = Some (fix_borough_cell v))
      by now rewrite nth_error_clean_borough, Ev.
    apply (nth_error_nth _ _ VNaN) in Hn. rewrite Hn.
    unfold safe_value.
    now destruct (fix_borough_cell_filled v) as [_ [_ ->]].
  - apply nth_error_None in Ev. lia.
Qed.

End CellFacts.

(** ** [safe_value] *)

(** C10. [safe_value v] is [None] exactly when [v] is a missing-value marker
    ([pd.isna v]), and is [v] itself otherwise; hence each of the nine
    parameters bound for a row, whatever the row holds, is [None] or a
    value that is not a missing-value marker. *)
Theorem safe_value_canonical :
  (forall v, safe_value v = VNone <-> pd.isna v = true) /\
  (forall v, pd.isna v = false -> safe_value v = v) /\
  (forall row,
      Forall (fun v => v = VNone \/ pd.isna v = false)
             (params_list (bind_params row))).
Proof.
  assert (Hs : forall v, safe_value v = VNone \/ pd.isna (safe_value v) = false).
  { intros v. unfold safe_value. destruct (pd.isna v) eqn:E; [now left | now right]. }
  split; [|split].
  - intros v. unfold safe_value. cases v; simpl; split; congruence.
  - intros v E. unfold safe_value. now rewrite E.
  - intros row. unfold params_list, bind_params; simpl.
    repeat (apply Forall_cons; [apply Hs|]). apply Forall_nil.
Qed.

(** ** Claims about [clean_data] *)

Section CleaningClaims.
Context `{Parser}.
Import pd pd_facts.

(** C4, as amended. In a chunk that has a Borough column, a cell that is
    missing ([None], [NaN], [NaT]) or the empty string is cleaned to
    ["UNKNOWN"]; any other text, text made of blanks included, stays as it
    is. *)
Theorem clean_data_borough df i v :
  cell df "Borough" i = Some v ->
  (isna v = true \/ v = VStr "" ->
   cell (clean_data df) "Borough" i = Some (VStr "UNKNOWN")) /\
  (forall s, v = VStr s -> s <> "" ->
   cell (clean_data df) "Borough" i = Some (VStr s)).
Proof.
  intros Hc. apply cell_lookup in Hc as [col [Hl Hn]].
  rewrite cell_clean_data, Hl, nth_error_clean_borough, Hn; simpl.
  split.
  - intros [Hna | ->]; [|reflexivity].
    cases v; simpl in *; try discriminate; reflexivity.
  - intros s -> Hs; simpl.
    destruct (String.eqb_spec s ""); [contradiction | reflexivity].
Qed.


(** C6. Cleaning a chunk keeps its number of rows and its columns, every
    column keeps one cell per row, no cell of the result is a [NaN] or
    [NaT] marker (it is [None] or a concrete value), a date cell is [None]
    or a timestamp and a coordinate cell is [None] or a number. *)
Theorem clean_data_shape df :
  well_formed df ->
  len (clean_data df) = len df /\
  length (iterrows (clean_data df)) = length (iterrows df) /\
  columns (clean_data df) = columns df /\
  well_formed (clean_data df) /\
  (forall c s v, In (c, s) (cols (clean_data df)) -> In v s ->
                 v = VNone \/ isna v = false) /\
  (forall c i v, is_date_column c -> cell (clean_data df) c i = Some v ->
                 v = VNone \/ exists t, v = VTimestamp t) /\
  (forall c i v, is_coordinate_column c -> cell (clean_data df) c i = Some v ->
                 v = VNone \/ exists q, numeric_value v = Some q).
Proof.
  intros Hwf.
  split; [apply nrows_clean_data|].
  split; [rewrite !length_iterrows; apply nrows_clean_data|].
  split; [apply columns_clean_data|].
  split; [now apply well_formed_clean_data|].
  split; [apply clean_data_no_marker|]. split.
  - intros c i v Hd. rewrite cell_clean_data.
    destruct (lookup_col c (cols df)) as [s|]; [|discriminate].
    rewrite (nth_error_clean_date _ _ _ Hd).
    destruct (nth_error s i) as [u|]; [|discriminate]. simpl. intros [= <-].
    destruct (date_cell_kind s u) as [-> | [t ->]];
      [now left | right; now exists t].
  - intros c i v Hd. rewrite cell_clean_data.
    destruct (lookup_col c (cols df)) as [s|]; [|discriminate].
    destruct (nth_error s i) as [u|] eqn:Eu.
    + destruct (nth_error_clean_coordinate c s i u Hd Eu)
        as [[zs [z [_ [_ ->]]]] | [_ ->]]; intros [= <-].
      * right. now exists (NInt z).
      * destruct (float_of_cell u) as [sg|sg| |sg m e];
          first [now left | right; eexists; reflexivity].
    + intros E. exfalso.
      assert (Hlen : i < length (clean_column c s))
        by (apply nth_error_Some; congruence).
      rewrite length_clean_column in Hlen.
      apply nth_error_None in Eu. lia.
Qed.

End CleaningClaims.

(** C4 fails on a Borough field of three blanks: it is made of whitespace
    only, and cleaning leaves it as it is. *)
Lemma clean_data_keeps_blanks :
  pd.cell Sample.blank_borough "Borough" 0 = Some (VStr "   ") /\
  whitespace_only "   " = true /\
  pd.cell (@clean_data Sample.parser Sample.blank_borough) "Borough" 0 = Some (VStr "   ") /\
  pd.cell (@clean_data Sample.parser Sample.blank_borough) "Borough" 0 <> Some (VStr "UNKNOWN").
Proof. repeat split. discriminate. Qed.

Lemma clean_data_borough_witness :
  pd.cell (@clean_data Sample.parser Sample.extract) "Borough" 1 = Some (VStr "UNKNOWN").
Proof.
  exact (proj1 (@clean_data_borough Sample.parser Sample.extract 1 VNaN eq_refl)
               (or_introl eq_refl)).
Defined.



(** What [to_numeric] keeps of numbers at the edge of the doubles: an int
    above [2^53] in a column with a missing cell is widened to the nearest
    double, and an infinity stays one. *)
Example to_numeric_widens_and_keeps_inf :
  @pd.to_numeric Sample.parser [VInt 9007199254740993; VNone]
  = [VFloat (float64.of_int 9007199254740992); VNaN] /\
  @pd.to_numeric Sample.parser [VStr "inf"; VStr "1.5"]
  = [VFloat float64.inf; VFloat (S754_finite false 6755399441055744 (-52))].
Proof. split; vm_compute; reflexivity. Qed.

Lemma well_formed_extract : pd.well_formed Sample.extract.
Proof. repeat constructor. Qed.

Lemma clean_data_shape_witness :
  pd.len (@clean_data Sample.parser Sample.extract) = 3.
Proof.
  exact (proj1 (@clean_data_shape Sample.parser Sample.extract well_formed_extract)).
Defined.

(** ** The sink: [REPLACE] keeps one row per key *)

Lemma rows_with_key_replace_into t p :
  rows_with_key (unique_key p) (replace_into t p) = [p].
Proof.
  unfold rows_with_key, replace_into. rewrite filter_app; simpl.
  unfold has_key at 3. rewrite value_eqb_refl.
  replace (filter _ (filter _ t)) with (@nil params); [reflexivity|].
  symmetry. induction t as [|r t IH]; simpl; [reflexivity|].
  destruct (has_key (unique_key p) r) eqn:E; simpl; [exact IH|].
  now rewrite E.
Qed.

Lemma rows_with_key_replace_other t p k :
  unique_key p <> k ->
  rows_with_key k (replace_into t p) = rows_with_key k t.
Proof.
  intros Hk. unfold rows_with_key, replace_into. rewrite filter_app; simpl.
  assert (E : has_key k p = false).
  { unfold has_key. destruct (value_eqb (unique_key p) k) eqn:E; [|reflexivity].
    apply value_eqb_eq in E. contradiction. }
  rewrite E, app_nil_r.
  induction t as [|r t IH]; simpl; [reflexivity|].
  destruct (has_key (unique_key p) r) eqn:E1; simpl.
  - unfold has_key in E1. apply value_eqb_eq in E1.
    assert (E2 : has_key k r = false).
    { unfold has_key. destruct (value_eqb (unique_key r) k) eqn:E2; [|reflexivity].
      apply value_eqb_eq in E2. congruence. }
    now rewrite E2.
  - destruct (has_key k r); [now rewrite IH | exact IH].
Qed.

(** ** The loops of [main], run *)

Section Loops.
Context `{Parser} (w : world).

Lemma write_row_run i row s :
  write_row w i row s =
  match execute_error w (chunk_num s) i with
  | None => (set_working (replace_into (working s) (bind_params row)) s, Ok tt)
  | Some e =>
      (if Nat.leb (error_count s + 1) 10
       then set_out (out s ++ [PrRowError (safe_value (pd.get row "Unique Key" VNone)) e])
                    (set_error_count (error_count s + 1) s)
       else set_error_count (error_count s + 1) s, Ok tt)
  end.
Proof.
  unfold write_row, try_except, execute.
  destruct (execute_error w (chunk_num s) i); [|reflexivity].
  unfold bind, modify, gets, when, print, ret; simpl.
  destruct (Nat.leb (error_count s + 1) 10); reflexivity.
Qed.

Lemma state_eta s :
  {| conn_open := conn_open s; cursor_open := cursor_open s;
     committed := committed s; working := working s;
     total_rows := total_rows s; chunk_num := chunk_num s;
     error_count := error_count s; out := out s |} = s.
Proof. now destruct s. Qed.

Lemma for_rows_run rows : forall i s,
  for_rows w i rows s = (after_rows w i rows s, Ok tt).
Proof.
  induction rows as [|row rows IH]; intros i s.
  - simpl. unfold ret, after_rows; simpl.
    rewrite Nat.add_0_r, firstn_nil, app_nil_r. now rewrite state_eta.
  - simpl. unfold bind at 1. rewrite write_row_run.
    destruct (execute_error w (chunk_num s) i) as [e|] eqn:E.
    + destruct (Nat.leb_spec (error_count s + 1) 10) as [Hle | Hgt];
        rewrite IH; unfold after_rows; simpl; rewrite E; simpl; f_equal; f_equal.
      * lia.
      * replace (error_budget (error_count s))
          with (S (error_budget (error_count s + 1)))
          by (unfold error_budget; lia).
        simpl. now rewrite <- app_assoc.
      * lia.
      * replace (error_budget (error_count s)) with 0
          by (unfold error_budget; lia).
        now replace (error_budget (error_count s + 1)) with 0
          by (unfold error_budget; lia).
    + rewrite IH. unfold after_rows; simpl. now rewrite E.
Qed.

Lemma bind_modify {A} (f : state -> state) (k : unit -> M A) s :
  bind (modify f) k s = k tt (f s).
Proof. reflexivity. Qed.

Lemma bind_gets {A B} (f : state -> A) (k : A -> M B) s :
  bind (gets f) k s = k (f s) s.
Proof. reflexivity. Qed.

Lemma bind_print {A} (o : output) (k : unit -> M A) s :
  bind (print o) k s = k tt (set_out (out s ++ [o]) s).
Proof. reflexivity. Qed.

Lemma chunk_num_rows_done chunk s :
  chunk_num (rows_done w chunk s) = chunk_num s + 1.
Proof. reflexivity. Qed.

Lemma working_rows_done chunk s :
  working (rows_done w chunk s) =
  load (working s)
       (written w (chunk_num s + 1) 0 (pd.iterrows (clean_data chunk))).
Proof. reflexivity. Qed.

Lemma process_chunk_run chunk s :
  process_chunk w chunk s =
  match commit_error w (chunk_num s + 1) with
  | Some e => (rows_done w chunk s, Raise e)
  | None => (after_chunk w chunk s, Ok tt)
  end.
Proof.
  unfold process_chunk. cbv zeta.
  rewrite bind_modify, bind_gets, bind_print.
  change (set_out _ (set_chunk_num _ s)) with (before_rows chunk s).
  unfold bind at 1. rewrite for_rows_run. fold (rows_done w chunk s).
  unfold bind at 1, commit. rewrite chunk_num_rows_done.
  destruct (commit_error w (chunk_num s + 1)); [reflexivity|].
  rewrite bind_modify, bind_gets. unfold print, modify. reflexivity.
Qed.

Lemma chunk_num_after_chunk chunk s :
  chunk_num (after_chunk w chunk s) = chunk_num s + 1.
Proof. reflexivity. Qed.

(** As long as commits succeed the loop moves on to the next chunk. *)
Lemma for_chunks_committed pre : forall rest s,
  (forall k, k < length pre -> commit_error w (chunk_num s + 1 + k) = None) ->
  for_chunks w (pre ++ rest) s = for_chunks w rest (after_chunks w pre s).
Proof.
  induction pre as [|chunk pre IH]; intros rest s Hok; [reflexivity|].
  simpl. unfold bind at 1. rewrite process_chunk_run.
  specialize (Hok 0 ltac:(simpl; lia)) as H0. rewrite Nat.add_0_r in H0.
  rewrite H0. apply IH. intros k Hk. rewrite chunk_num_after_chunk.
  specialize (Hok (S k) ltac:(simpl; lia)).
  now replace (chunk_num s + 1 + 1 + k) with (chunk_num s + 1 + S k) by lia.
Qed.

Lemma total_rows_after_chunk chunk s :
  total_rows (after_chunk w chunk s) = total_rows s + pd.len chunk.
Proof.
  unfold after_chunk, set_out, set_total_rows, total_rows at 1.
  unfold pd.len at 1. now rewrite nrows_clean_data.
Qed.

Lemma total_rows_after_chunks cs : forall s,
  total_rows (after_chunks w cs s) = total_rows s + sum_len cs.
Proof.
  induction cs as [|chunk cs IH]; intros s.
  - unfold sum_len; simpl. lia.
  - cbn [after_chunks]. rewrite IH, total_rows_after_chunk.
    unfold sum_len; simpl. lia.
Qed.

Lemma chunk_num_after_chunks cs : forall s,
  chunk_num (after_chunks w cs s) = chunk_num s + length cs.
Proof.
  induction cs as [|chunk cs IH]; intros s; simpl; [lia|].
  rewrite IH, chunk_num_after_chunk. lia.
Qed.

Lemma working_after_chunks cs : forall s,
  working (after_chunks w cs s) = load_chunks w (chunk_num s + 1) (working s) cs.
Proof.
  induction cs as [|chunk cs IH]; intros s; simpl; [reflexivity|].
  rewrite IH, chunk_num_after_chunk. simpl.
  now replace (chunk_num s + 1 + 1) with (S (chunk_num s + 1)) by lia.
Qed.

Lemma committed_after_chunks cs : forall s,
  committed s = working s ->
  committed (after_chunks w cs s) = working (after_chunks w cs s).
Proof.
  induction cs as [|chunk cs IH]; intros s Hs; simpl; [exact Hs|].
  now apply IH.
Qed.

Lemma run_unfold t :
  run w t =
  match connect_error w with
  | Some e => (set_out [PrStarting] (initial t), Raise e)
  | None => guarded w (entry t)
  end.
Proof.
  unfold run, main, bind at 1 2, print, modify, connect; simpl.
  destruct (connect_error w); reflexivity.
Qed.

Lemma guarded_run s :
  guarded w s =
  match body w (start_time w) s with
  | (s', Raise e) => (fatal_exit e s', Ok tt)
  | (s', Ok _) => (normal_exit s', Ok tt)
  end.
Proof.
  unfold guarded, try_finally, try_except.
  destruct (body w (start_time w) s) as [s' [[]|e]]; simpl.
  - reflexivity.
  - unfold on_fatal, fatal_exit, bind, print, modify, rollback; simpl.
    now rewrite <- app_assoc.
Qed.

Lemma report_run start s :
  report w start s =
  (set_out (out s ++ summary (total_rows s) (error_count s)
                             (float64.sub (end_time w) start)) s, Ok tt).
Proof.
  unfold report, bind, gets, print, modify; simpl.
  unfold set_out; simpl. now rewrite <- !app_assoc.
Qed.

Lemma body_run start s :
  body w start s =
  match sample_read w with
  | Raise e => (s, Raise e)
  | Ok d =>
      match for_chunks w (chunks w) (announced d s) with
      | (s', Raise e) => (s', Raise e)
      | (s', Ok _) => report w start s'
      end
  end.
Proof.
  unfold body, bind at 1, read_sample.
  destruct (sample_read w) as [d|e]; [|reflexivity].
  unfold bind at 1 2 3, print, modify; simpl.
  change (set_out _ (set_out _ s)) with (announced d s).
  now destruct (for_chunks w (chunks w) (announced d s)) as [s' [[]|e]].
Qed.

End Loops.

(** ** A rule for properties of the state that every step of a run keeps *)

Section RunInvariant.
Context `{Parser} (w : world).
Variable Inv : state -> Prop.
Variable good_chunk : pd.DataFrame -> Prop.

Hypothesis Inv_announced : forall d s, Inv s -> Inv (announced d s).
Hypothesis Inv_rows_done :
  forall chunk s, good_chunk chunk -> Inv s -> Inv (rows_done w chunk s).
Hypothesis Inv_after_chunk :
  forall chunk s, good_chunk chunk -> Inv s -> Inv (after_chunk w chunk s).
Hypothesis Inv_report :
  forall l s, Forall (fun o => forall k e, o <> PrRowError k e) l ->
              Inv s -> Inv (set_out (out s ++ l) s).
Hypothesis Inv_fatal_exit : forall e s, Inv s -> Inv (fatal_exit e s).
Hypothesis Inv_normal_exit : forall s, Inv s -> Inv (normal_exit s).

Lemma for_chunks_invariant cs : forall s,
  Forall good_chunk cs -> Inv s -> Inv (fst (for_chunks w cs s)).
Proof.
  induction cs as [|chunk cs IH]; intros s Hcs Hs; simpl.
  - destruct (reader_error w); exact Hs.
  - inversion Hcs as [|? ? Hc Hcs']; subst.
    unfold bind. rewrite process_chunk_run.
    destruct (commit_error w (chunk_num s + 1)).
    + simpl. now apply Inv_rows_done.
    + apply IH; [exact Hcs' | now apply Inv_after_chunk].
Qed.

Lemma guarded_invariant s :
  Forall good_chunk (chunks w) -> Inv s -> Inv (fst (guarded w s)).
Proof.
  intros Hcs Hs. rewrite guarded_run, body_run.
  destruct (sample_read w) as [d|e]; [|now apply Inv_fatal_exit].
  pose proof (for_chunks_invariant (chunks w) (announced d s) Hcs
                (Inv_announced d s Hs)) as Hf.
  destruct (for_chunks w (chunks w) (announced d s)) as [s' [[]|e]];
    simpl in Hf.
  - rewrite report_run. simpl. apply Inv_normal_exit. apply Inv_report; [|exact Hf].
    unfold summary. repeat constructor; discriminate.
  - simpl. now apply Inv_fatal_exit.
Qed.

Lemma run_invariant t :
  Forall good_chunk (chunks w) ->
  Inv (set_out [PrStarting] (initial t)) -> Inv (entry t) ->
  Inv (fst (run w t)).
Proof.
  intros Hcs H0 H1. rewrite run_unfold.
  destruct (connect_error w); [exact H0 | now apply guarded_invariant].
Qed.

End RunInvariant.

(** ** Row errors on the console *)

Section ErrorFacts.
Context `{Parser} (w : world).

Lemma row_errors_app l1 l2 :
  row_errors (l1 ++ l2) = row_errors l1 ++ row_errors l2.
Proof. apply filter_app. Qed.

Lemma row_errors_failures fs :
  row_errors (map print_failure fs) = map print_failure fs.
Proof.
  induction fs as [|f fs IH]; simpl; [reflexivity|]. now rewrite IH.
Qed.

Lemma row_errors_others l :
  Forall (fun o => forall k e, o <> PrRowError k e) l -> row_errors l = [].
Proof.
  induction 1 as [|o l Ho _ IH]; simpl; [reflexivity|].
  destruct o; simpl; try exact IH. now destruct (Ho key e).
Qed.

Lemma errors_capped_after_rows i rows s :
  errors_capped s -> errors_capped (after_rows w i rows s).
Proof.
  unfold errors_capped, after_rows; simpl. intros Hs.
  rewrite row_errors_app, row_errors_failures, length_app, length_map,
    length_firstn, Hs.
  unfold error_budget. lia.
Qed.

Lemma errors_capped_print o s :
  (forall k e, o <> PrRowError k e) ->
  errors_capped s -> errors_capped (set_out (out s ++ [o]) s).
Proof.
  unfold errors_capped; simpl. intros Ho Hs.
  rewrite row_errors_app, length_app, Hs.
  rewrite (row_errors_others [o]); [simpl; lia|]. now constructor.
Qed.

Lemma errors_capped_run t : errors_capped (fst (run w t)).
Proof.
  apply (run_invariant w errors_capped (fun _ => True)).
  - intros d s Hs. unfold announced.
    apply (errors_capped_print PrBlank
             (set_out (out s ++ [PrColumns (pd.columns d)]) s));
      [discriminate|].
    apply errors_capped_print; [discriminate | exact Hs].
  - intros chunk s _ Hs. unfold rows_done.
    apply errors_capped_after_rows. unfold before_rows.
    apply (errors_capped_print _ (set_chunk_num (chunk_num s + 1) s));
      [discriminate | exact Hs].
  - intros chunk s _ Hs. unfold after_chunk.
    assert (Hr : errors_capped (rows_done w chunk s)).
    { unfold rows_done. apply errors_capped_after_rows. unfold before_rows.
      apply (errors_capped_print _ (set_chunk_num (chunk_num s + 1) s));
        [discriminate | exact Hs]. }
    revert Hr. generalize (rows_done w chunk s). intros s2 Hr.
    unfold errors_capped in *; simpl.
    rewrite row_errors_app, length_app, Hr. simpl. lia.
  - intros l s Hl Hs. unfold errors_capped in *; simpl.
    rewrite row_errors_app, length_app, Hs, (row_errors_others l Hl).
    simpl. lia.
  - intros e s Hs. unfold errors_capped in *; simpl.
    rewrite row_errors_app, length_app, Hs. simpl. lia.
  - intros s Hs. exact Hs.
  - now apply Forall_forall.
  - reflexivity.
  - reflexivity.
Qed.

Lemma written_all_accepted cn rows : forall i,
  (forall j, j < length rows -> execute_error w cn (i + j) = None) ->
  written w cn i rows = map bind_params rows /\ failures w cn i rows = [].
Proof.
  induction rows as [|row rows IH]; intros i Hok; simpl; [now split|].
  pose proof (Hok 0 ltac:(simpl; lia)) as H0. rewrite Nat.add_0_r in H0.
  rewrite H0. destruct (IH (S i)) as [Hw Hf].
  { intros j Hj. specialize (Hok (S j) ltac:(simpl; lia)).
    now replace (S i + j) with (i + S j) by lia. }
  now rewrite Hw, Hf.
Qed.

Lemma written_one_rejected cn rows : forall i K e,
  K < length rows ->
  execute_error w cn (i + K) = Some e ->
  (forall j, j < length rows -> j <> K -> execute_error w cn (i + j) = None) ->
  written w cn i rows = map bind_params (firstn K rows ++ skipn (S K) rows) /\
  length (failures w cn i rows) = 1.
Proof.
  induction rows as [|row rows IH]; intros i K e HK He Hok; simpl in HK; [lia|].
  destruct K as [|K]; simpl.
  - rewrite Nat.add_0_r in He. rewrite He.
    destruct (written_all_accepted cn rows (S i)) as [Hw Hf].
    { intros j Hj. specialize (Hok (S j) ltac:(simpl; lia) ltac:(lia)).
      now replace (S i + j) with (i + S j) by lia. }
    now rewrite Hw, Hf.
  - pose proof (Hok 0 ltac:(simpl; lia) ltac:(lia)) as H0.
    rewrite Nat.add_0_r in H0. rewrite H0.
    destruct (IH (S i) K e) as [Hw Hf].
    + lia.
    + now replace (S i + K) with (i + S K) by lia.
    + intros j Hj Hne. specialize (Hok (S j) ltac:(simpl; lia) ltac:(lia)).
      now replace (S i + j) with (i + S j) by lia.
    + now rewrite Hw, Hf.
Qed.

Lemma written_or_failed cn rows : forall i,
  length (written w cn i rows) + length (failures w cn i rows) = length rows.
Proof.
  induction rows as [|row rows IH]; intros i; simpl; [reflexivity|].
  destruct (execute_error w cn i); simpl; rewrite <- (IH (S i)); lia.
Qed.

Lemma length_remove_at {A} (l : list A) K :
  K < length l -> length (firstn K l ++ skipn (S K) l) = length l - 1.
Proof.
  intros HK. rewrite length_app, length_firstn, length_skipn. lia.
Qed.

End ErrorFacts.

(** ** Rows in the table *)

Lemma filter_keeps_all {A} (f : A -> bool) (l : list A) :
  filter (fun x => negb (f x)) l = l <-> filter f l = [].
Proof.
  induction l as [|x l IH]; simpl; [tauto|].
  destruct (f x) eqn:E; simpl.
  - split; [|discriminate]. intros E'.
    pose proof (filter_length_le (fun x => negb (f x)) l) as Hle.
    rewrite E' in Hle. simpl in Hle. lia.
  - split.
    + intros [= E']. now apply IH.
    + intros E'. f_equal. now apply IH.
Qed.

Lemma length_replace_into_fresh t p :
  rows_with_key (unique_key p) t = [] ->
  length (replace_into t p) = length t + 1.
Proof.
  intros Hf. unfold replace_into. rewrite length_app; simpl.
  f_equal. f_equal. now apply filter_keeps_all.
Qed.

Lemma length_load_fresh ps : forall t,
  NoDup (map unique_key ps) ->
  (forall p, In p ps -> rows_with_key (unique_key p) t = []) ->
  length (load t ps) = length t + length ps.
Proof.
  induction ps as [|p ps IH]; intros t Hnd Hf; simpl; [lia|].
  inversion Hnd as [|? ? Hnotin Hnd']; subst.
  rewrite IH.
  - rewrite length_replace_into_fresh; [lia|]. apply Hf. now left.
  - exact Hnd'.
  - intros q Hq. rewrite rows_with_key_replace_other.
    + apply Hf. now right.
    + intros E. apply Hnotin. rewrite E. now apply in_map.
Qed.

Lemma In_replace_into r t p : In r (replace_into t p) -> In r t \/ r = p.
Proof.
  unfold replace_into. rewrite in_app_iff. intros [Hr | [<- | []]].
  - left. now apply filter_In in Hr.
  - now right.
Qed.

Lemma In_load r ps : forall t, In r (load t ps) -> In r t \/ In r ps.
Proof.
  induction ps as [|p ps IH]; intros t Hr; simpl in *; [now left|].
  destruct (IH _ Hr) as [Ht | Hps].
  - destruct (In_replace_into _ _ _ Ht) as [? | ->]; [now left | right; now left].
  - right. now right.
Qed.

Lemma In_written `{Parser} (w : world) cn rows : forall i p,
  In p (written w cn i rows) -> exists row, In row rows /\ p = bind_params row.
Proof.
  induction rows as [|row rows IH]; intros i p Hp; simpl in *; [contradiction|].
  destruct (execute_error w cn i).
  - destruct (IH _ _ Hp) as [r [Hr ->]]. exists r. split; [now right | reflexivity].
  - destruct Hp as [<- | Hp].
    + exists row. split; [now left | reflexivity].
    + destruct (IH _ _ Hp) as [r [Hr ->]]. exists r. split; [now right | reflexivity].
Qed.

Section ChunkFields.
Context `{Parser} (w : world).

Lemma error_count_after_chunk chunk s :
  error_count (after_chunk w chunk s) =
  error_count s
  + length (failures w (chunk_num s + 1) 0 (pd.iterrows (clean_data chunk))).
Proof. reflexivity. Qed.

Lemma working_after_chunk chunk s :
  working (after_chunk w chunk s) =
  load (working s)
       (written w (chunk_num s + 1) 0 (pd.iterrows (clean_data chunk))).
Proof. reflexivity. Qed.

Lemma committed_after_chunk chunk s :
  committed (after_chunk w chunk s) = working (after_chunk w chunk s).
Proof. reflexivity. Qed.

End ChunkFields.

(** ** Claims about the Replace-Write and the row loop *)

(** C1. Two Replace-Writes with the same key, whatever the other fields
    hold, leave exactly one row under that key, and it is the nine-field
    tuple of the second write; so it is when the row loop writes two rows
    that bind the same key. *)
Theorem replace_write_last_wins `{Parser} (w : world) :
  (forall t p1 p2,
      unique_key p1 = unique_key p2 ->
      rows_with_key (unique_key p2) (replace_into (replace_into t p1) p2) = [p2]) /\
  (forall s i r1 r2,
      execute_error w (chunk_num s) i = None ->
      execute_error w (chunk_num s) (S i) = None ->
      unique_key (bind_params r1) = unique_key (bind_params r2) ->
      rows_with_key (unique_key (bind_params r2))
                    (working (fst (for_rows w i [r1; r2] s)))
      = [bind_params r2]).
Proof.
  split.
  - intros t p1 p2 _. apply rows_with_key_replace_into.
  - intros s i r1 r2 E1 E2 _. rewrite for_rows_run.
    unfold after_rows; simpl. rewrite E1, E2. simpl.
    exact (rows_with_key_replace_into _ (bind_params r2)).
Qed.

(** C2. In a chunk of N rows of which exactly row K is rejected and whose
    commit succeeds, the other N-1 rows are written in order (those after
    row K included) and committed, the error counter goes up by one, and
    N-1 rows are added to the table when their keys are new and distinct.
    In general the row loop never raises: every rejected row adds one to the
    counter and every other row is written.  Over a whole run the printed
    row errors are as many as the counter says up to ten, and never more
    than ten. *)
Theorem row_failures_counted_and_skipped `{Parser} (w : world) :
  (forall chunk s K e,
      K < pd.len chunk ->
      execute_error w (chunk_num s + 1) K = Some e ->
      (forall j, j < pd.len chunk -> j <> K ->
                 execute_error w (chunk_num s + 1) j = None) ->
      commit_error w (chunk_num s + 1) = None ->
      let rows := pd.iterrows (clean_data chunk) in
      let ps := written w (chunk_num s + 1) 0 rows in
      let s' := fst (process_chunk w chunk s) in
      snd (process_chunk w chunk s) = Ok tt /\
      error_count s' = error_count s + 1 /\
      ps = map bind_params (firstn K rows ++ skipn (S K) rows) /\
      length ps = pd.len chunk - 1 /\
      working s' = load (working s) ps /\
      committed s' = working s' /\
      total_rows s' = total_rows s + pd.len chunk /\
      (NoDup (map unique_key ps) ->
       (forall p, In p ps -> rows_with_key (unique_key p) (working s) = []) ->
       length (committed s') = length (working s) + (pd.len chunk - 1))) /\
  (forall i rows s,
      let s' := fst (for_rows w i rows s) in
      snd (for_rows w i rows s) = Ok tt /\
      error_count s' =
        error_count s + length (failures w (chunk_num s) i rows) /\
      working s' = load (working s) (written w (chunk_num s) i rows) /\
      length (written w (chunk_num s) i rows)
        + length (failures w (chunk_num s) i rows) = length rows /\
      out s' = out s ++ map print_failure
                          (firstn (10 - error_count s)
                                  (failures w (chunk_num s) i rows))) /\
  (forall t,
      let s' := fst (run w t) in
      length (row_errors (out s')) = Nat.min (error_count s') 10 /\
      length (row_errors (out s')) <= 10).
Proof.
  split; [|split].
  - intros chunk s K e HK He Hok Hc rows ps s'.
    assert (Hlen : length rows = pd.len chunk).
    { unfold rows. rewrite pd_facts.length_iterrows. apply nrows_clean_data. }
    destruct (written_one_rejected w (chunk_num s + 1) rows 0 K e) as [Hw Hf].
    { now rewrite Hlen. }
    { exact He. }
    { intros j Hj Hne. apply Hok; [now rewrite <- Hlen | exact Hne]. }
    assert (Hps : length ps = pd.len chunk - 1).
    { unfold ps. rewrite Hw, length_map, length_remove_at; lia. }
    unfold s'. rewrite process_chunk_run, Hc. cbn [fst snd].
    rewrite committed_after_chunk, working_after_chunk, error_count_after_chunk,
      total_rows_after_chunk.
    fold rows. fold ps. rewrite Hf.
    repeat split; try assumption; try reflexivity.
    intros Hnd Hfresh. rewrite <- Hps. now apply length_load_fresh.
  - intros i rows s s'. unfold s'. rewrite for_rows_run. simpl.
    repeat split; try reflexivity. apply written_or_failed.
  - intros t s'. pose proof (errors_capped_run w t) as Hc.
    unfold errors_capped in Hc. fold s' in Hc. split; [exact Hc | lia].
Qed.

(** ** The borough of a stored row *)

Section BoroughFacts.
Context `{Parser}.
Import pd pd_facts.

Lemma borough_filled_cleaned_row df row :
  well_formed df -> In row (iterrows (clean_data df)) ->
  borough_filled (bind_params row).
Proof.
  intros Hwf Hin. apply In_iterrows in Hin as [i [Hi ->]].
  rewrite nrows_clean_data in Hi.
  unfold borough_filled. rewrite (borough_of_cleaned_row df i Hwf Hi).
  destruct (cell df "Borough" i) as [v|].
  - apply fix_borough_cell_filled.
  - repeat split; discriminate.
Qed.

Lemma borough_default_when_absent df row :
  in_columns "Borough" df = false -> In row (iterrows (clean_data df)) ->
  borough (bind_params row) = VStr "UNKNOWN".
Proof.
  intros Habs Hin. apply In_iterrows in Hin as [i [_ ->]].
  unfold bind_params; simpl. rewrite get_row_at, lookup_clean_data.
  rewrite in_columns_lookup in Habs.
  destruct (lookup_col "Borough" (cols df)); [discriminate | reflexivity].
Qed.

Lemma stored_boroughs_filled_run (w : world) t :
  Forall well_formed (chunks w) ->
  stored_boroughs_filled t (fst (run w t)).
Proof.
  intros Hcs.
  assert (Hrows : forall chunk s, well_formed chunk ->
            stored_boroughs_filled t s ->
            stored_boroughs_filled t (rows_done w chunk s)).
  { intros chunk s Hwf Hs r [Hr | Hr].
    - apply Hs. now left.
  - rewrite working_rows_done in Hr.
    apply In_load in Hr as [Hr | Hr]; [apply Hs; now right|].
      apply In_written in Hr as [row [Hrow ->]].
      right. now apply (borough_filled_cleaned_row chunk). }
  apply (run_invariant w (stored_boroughs_filled t) well_formed);
    try exact Hcs.
  - intros d s Hs. exact Hs.
  - exact Hrows.
  - intros chunk s Hwf Hs r Hr.
    apply (Hrows chunk s Hwf Hs r). right.
    destruct Hr as [Hr | Hr]; exact Hr.
  - intros l s _ Hs. exact Hs.
  - intros e s Hs r Hr. apply Hs. left. destruct Hr as [Hr | Hr]; exact Hr.
  - intros s Hs. exact Hs.
  - intros r [Hr | Hr]; now left.
  - intros r [Hr | Hr]; now left.
Qed.

(** C3. The borough bound for a row of a cleaned chunk is never [None]
    and never the empty string: with a Borough column, cleaning has put
    ["UNKNOWN"] for a missing or empty cell; without one, the binding
    itself puts ["UNKNOWN"].  Hence every row a run stores has its
    borough filled in. *)
Theorem borough_never_empty :
  (forall df row,
      well_formed df -> In row (iterrows (clean_data df)) ->
      borough_filled (bind_params row)) /\
  (forall df i v,
      well_formed df -> i < len df -> cell df "Borough" i = Some v ->
      isna v = true \/ v = VStr "" ->
      borough (bind_params (row_at (clean_data df) i)) = VStr "UNKNOWN") /\
  (forall df row,
      in_columns "Borough" df = false -> In row (iterrows (clean_data df)) ->
      borough (bind_params row) = VStr "UNKNOWN") /\
  (forall (w : world) t r,
      Forall well_formed (chunks w) ->
      In r (committed (fst (run w t))) \/ In r (working (fst (run w t))) ->
      In r t \/ borough_filled r).
Proof.
  split; [exact borough_filled_cleaned_row|].
  split; [|split; [exact borough_default_when_absent|]].
  - intros df i v Hwf Hi Hc Hv.
    rewrite (borough_of_cleaned_row df i Hwf Hi), Hc.
    destruct Hv as [Hna | ->]; [|reflexivity].
    cases v; simpl in *; try discriminate; reflexivity.
  - intros w t r Hcs Hr. now apply (stored_boroughs_filled_run w t Hcs r).
Qed.

End BoroughFacts.

(** ** Claims about a whole run *)

Section RunClaims.
Context `{Parser} (w : world).

(** What a run leaves when nothing outside the row loop fails. *)
Lemma run_completes t d :
  connect_error w = None ->
  sample_read w = Ok d ->
  reader_error w = None ->
  (forall cn, 1 <= cn <= length (chunks w) -> commit_error w cn = None) ->
  let s := after_chunks w (chunks w) (announced d (entry t)) in
  run w t =
  (normal_exit
     (set_out (out s ++ summary (sum_len (chunks w)) (error_count s)
                                (float64.sub (end_time w) (start_time w))) s),
   Ok tt).
Proof.
  intros Hc Hs Hr Hcommit s.
  rewrite run_unfold, Hc, guarded_run, body_run, Hs.
  rewrite <- (app_nil_r (chunks w)) at 1.
  rewrite for_chunks_committed.
  - simpl. rewrite Hr. unfold ret. rewrite report_run. fold s.
    replace (total_rows s) with (sum_len (chunks w)); [reflexivity|].
    unfold s. now rewrite total_rows_after_chunks.
  - intros k Hk. apply Hcommit. simpl. lia.
Qed.

(** C7. When the run completes (the connection, the sample read, the
    reader and every commit succeed), the total it reports is the sum of
    the lengths of the chunks read, whichever rows were rejected and
    whichever keys repeat. *)
Theorem total_rows_counts_input_rows t :
  connect_error w = None ->
  (exists d, sample_read w = Ok d) ->
  reader_error w = None ->
  (forall cn, 1 <= cn <= length (chunks w) -> commit_error w cn = None) ->
  snd (run w t) = Ok tt /\
  total_rows (fst (run w t)) = list_sum (map pd.len (chunks w)) /\
  exists before,
    out (fst (run w t)) =
    before ++ summary (list_sum (map pd.len (chunks w)))
                      (error_count (fst (run w t)))
                      (float64.sub (end_time w) (start_time w)).
Proof.
  intros Hc [d Hs] Hr Hcommit.
  rewrite (run_completes t d Hc Hs Hr Hcommit). cbn [fst snd].
  split; [reflexivity|]. split.
  - unfold normal_exit, set_conn_open, set_cursor_open, set_out; simpl.
    now rewrite total_rows_after_chunks.
  - eexists. reflexivity.
Qed.

End RunClaims.

Section FatalClaims.
Context `{Parser} (w : world).

Lemma run_closes t :
  conn_open (fst (run w t)) = false /\ cursor_open (fst (run w t)) = false.
Proof.
  rewrite run_unfold. destruct (connect_error w); [now split|].
  rewrite guarded_run.
  destruct (body w (start_time w) (entry t)) as [s [[]|e]]; now split.
Qed.

Lemma body_raises_at_commit t d pre chunk post e :
  sample_read w = Ok d ->
  chunks w = pre ++ chunk :: post ->
  (forall cn, 1 <= cn <= length pre -> commit_error w cn = None) ->
  commit_error w (S (length pre)) = Some e ->
  body w (start_time w) (entry t) =
  (rows_done w chunk (after_chunks w pre (announced d (entry t))), Raise e).
Proof.
  intros Hs Hcs Hpre He. rewrite body_run, Hs, Hcs.
  rewrite for_chunks_committed.
  - cbn [for_chunks]. unfold bind. rewrite process_chunk_run.
    rewrite chunk_num_after_chunks. simpl.
    replace (length pre + 1) with (S (length pre)) by lia.
    now rewrite He.
  - intros k Hk. apply Hpre. simpl. lia.
Qed.

Lemma for_chunks_to_end cs s :
  (forall k, k < length cs -> commit_error w (chunk_num s + 1 + k) = None) ->
  for_chunks w cs s =
  match reader_error w with
  | Some e => (after_chunks w cs s, Raise e)
  | None => (after_chunks w cs s, Ok tt)
  end.
Proof.
  intros Hok. rewrite <- (app_nil_r cs) at 1.
  rewrite (for_chunks_committed w cs [] s Hok). simpl.
  destruct (reader_error w); reflexivity.
Qed.

(** C8. When an exception leaves [body] (the part under [try:]) the run
    stops there: the error and the traceback are the last lines printed,
    the open transaction is rolled back to the table as last committed,
    and cursor and connection are closed.  When it is the commit of a
    chunk that fails, the table holds the chunks committed before it and
    nothing of the chunk in flight.  Cursor and connection are closed at
    the end of every run; a failed [connect] leaves [main] as an
    exception with nothing opened and nothing written, and the
    interpreter writes its traceback. *)
Theorem fatal_error_rolls_back_and_releases :
  (forall t e s,
      connect_error w = None ->
      body w (start_time w) (entry t) = (s, Raise e) ->
      let s' := fst (run w t) in
      snd (run w t) = Ok tt /\
      out s' = out s ++ [PrFatal e; PrTraceback] /\
      committed s' = committed s /\
      working s' = committed s /\
      total_rows s' = total_rows s /\
      chunk_num s' = chunk_num s /\
      conn_open s' = false /\ cursor_open s' = false) /\
  (forall t d pre chunk post e,
      connect_error w = None ->
      sample_read w = Ok d ->
      chunks w = pre ++ chunk :: post ->
      (forall cn, 1 <= cn <= length pre -> commit_error w cn = None) ->
      commit_error w (S (length pre)) = Some e ->
      let s' := fst (run w t) in
      snd (run w t) = Ok tt /\
      (exists before, out s' = before ++ [PrFatal e; PrTraceback]) /\
      committed s' = load_chunks w 1 t pre /\
      working s' = committed s' /\
      total_rows s' = list_sum (map pd.len pre) /\
      chunk_num s' = S (length pre) /\
      conn_open s' = false /\ cursor_open s' = false) /\
  (forall t d e,
      connect_error w = None ->
      sample_read w = Ok d ->
      (forall cn, 1 <= cn <= length (chunks w) -> commit_error w cn = None) ->
      reader_error w = Some e ->
      let s' := fst (run w t) in
      snd (run w t) = Ok tt /\
      (exists before, out s' = before ++ [PrFatal e; PrTraceback]) /\
      committed s' = load_chunks w 1 t (chunks w) /\
      working s' = committed s' /\
      conn_open s' = false /\ cursor_open s' = false) /\
  (forall t,
      conn_open (fst (run w t)) = false /\
      cursor_open (fst (run w t)) = false) /\
  (forall t e,
      connect_error w = Some e ->
      run w t = (set_out [PrStarting] (initial t), Raise e) /\
      script w (initial t) =
      (set_out [PrStarting; PrTraceback; PrUncaught e] (initial t), Raise e)).
Proof.
  split; [|split; [|split; [|split]]].
  - intros t e s Hc Hb s'. unfold s'.
    rewrite run_unfold, Hc, guarded_run, Hb. cbn [fst snd].
    repeat split; reflexivity.
  - intros t d pre chunk post e Hc Hs Hcs Hpre He s'. unfold s'.
    rewrite run_unfold, Hc, guarded_run.
    rewrite (body_raises_at_commit t d pre chunk post e Hs Hcs Hpre He).
    cbn [fst snd].
    set (s1 := after_chunks w pre (announced d (entry t))).
    assert (Hcm : committed s1 = load_chunks w 1 t pre).
    { unfold s1. rewrite committed_after_chunks by reflexivity.
      now rewrite working_after_chunks. }
    repeat split.
    + eexists. reflexivity.
    + exact Hcm.
    + change (total_rows s1 = list_sum (map pd.len pre)).
      unfold s1. now rewrite total_rows_after_chunks.
    + change (chunk_num s1 + 1 = S (length pre)).
      unfold s1. rewrite chunk_num_after_chunks. simpl. lia.
  - intros t d e Hc Hs Hcommit Hr s'. unfold s'.
    rewrite run_unfold, Hc, guarded_run, body_run, Hs.
    rewrite for_chunks_to_end by (intros k Hk; apply Hcommit; simpl; lia).
    rewrite Hr. cbn [fst snd].
    set (s1 := after_chunks w (chunks w) (announced d (entry t))).
    assert (Hcm : committed s1 = load_chunks w 1 t (chunks w)).
    { unfold s1. rewrite committed_after_chunks by reflexivity.
      now rewrite working_after_chunks. }
    repeat split.
    + eexists. reflexivity.
    + exact Hcm.
  - exact run_closes.
  - intros t e Hc. split; [now rewrite run_unfold, Hc|].
  unfold script, try_except. fold (run w t). rewrite run_unfold, Hc.
  reflexivity.
Qed.

End FatalClaims.

(** ** The summary *)

Lemma is_digit_digit n : (0 <= n < 10)%Z -> is_digit (digit n) = true.
Proof.
  intros Hn. unfold is_digit, digit.
  rewrite nat_ascii_embedding by lia.
  apply andb_true_intro. split; apply Nat.leb_le; lia.
Qed.

Lemma string_app_assoc (a b c : string) :
  ((a ++ b) ++ c = a ++ (b ++ c))%string.
Proof. induction a as [|x a IH]; simpl; [reflexivity | now rewrite IH]. Qed.

Lemma rows_per_sec_positive n d :
  float64.ltb float64.zero d = true ->
  rows_per_sec n d = float64.div (float64.of_int (Z.of_nat n)) d.
Proof. intros Hd. unfold rows_per_sec. now rewrite Hd. Qed.

Lemma rows_per_sec_not_positive n d :
  float64.ltb float64.zero d = false -> rows_per_sec n d = float64.zero.
Proof. intros Hd. unfold rows_per_sec. now rewrite Hd. Qed.

Lemma fixed_2_shape c :
  exists ip d1 d2,
    fixed_2 c = (ip ++ "." ++ String d1 (String d2 ""))%string /\
    is_digit d1 = true /\ is_digit d2 = true.
Proof.
  exists (NilZero.string_of_uint (N.to_uint (Z.to_N (c / 100)))),
         (digit ((c / 10) mod 10)), (digit (c mod 10)).
  split; [reflexivity|].
  split; apply is_digit_digit; apply Z.mod_pos_bound; lia.
Qed.

Set Warnings "-abstract-large-number".

(** C9. A completed run prints the duration (the difference of the two
    clock readings) and the throughput, each through the two-decimal
    format.  The throughput is [total_rows / duration], the quotient of
    doubles, for a duration above 0, and 0 for a duration of 0 and for
    any other that is not above 0: 10000 rows in 10.0 seconds give 1000.0
    and print as ["1000.00"], a zero duration prints ["0.00"], and one
    row in 200 seconds, whose quotient as a double lies just above five
    thousandths, prints ["0.01"].  The format writes a float that is
    finite with a point and two digits, and an infinity or a [nan] by its
    name. *)
Theorem throughput_reported `{Parser} (w : world) :
  (forall t,
      connect_error w = None ->
      (exists d, sample_read w = Ok d) ->
      reader_error w = None ->
      (forall cn, 1 <= cn <= length (chunks w) -> commit_error w cn = None) ->
      let s' := fst (run w t) in
      let duration := float64.sub (end_time w) (start_time w) in
      In (PrDuration (format_2f duration)) (out s') /\
      In (PrSpeed (format_2f (rows_per_sec (total_rows s') duration))) (out s')) /\
  (forall n d,
      float64.ltb float64.zero d = true ->
      rows_per_sec n d = float64.div (float64.of_int (Z.of_nat n)) d) /\
  (forall n d,
      float64.ltb float64.zero d = false -> rows_per_sec n d = float64.zero) /\
  (forall n s, rows_per_sec n (S754_zero s) = float64.zero) /\
  rows_per_sec 10000 (float64.of_int 10) = float64.of_int 1000 /\
  format_2f (rows_per_sec 10000 (float64.of_int 10)) = "1000.00" /\
  (forall n s, format_2f (rows_per_sec n (S754_zero s)) = "0.00") /\
  format_2f (rows_per_sec 1 (float64.of_int 200)) = "0.01" /\
  (forall x, float64.is_finite x = true ->
      exists ip d1 d2,
        format_2f x = (ip ++ "." ++ String d1 (String d2 ""))%string /\
        is_digit d1 = true /\ is_digit d2 = true) /\
  (forall x, float64.is_finite x = false ->
      In (format_2f x) ["inf"; "-inf"; "nan"]).
Proof.
  split; [|split; [|split; [|split; [|split; [|split; [|split;
    [|split; [|split]]]]]]]].
  - intros t Hc Hs Hr Hcommit s' duration.
    destruct Hs as [d Hs]. unfold s'.
    rewrite (run_completes w t d Hc Hs Hr Hcommit). cbn [fst].
    unfold normal_exit, set_conn_open, set_cursor_open, set_out.
    cbn [out total_rows]. rewrite total_rows_after_chunks. cbn [plus].
    fold duration. unfold summary.
    split; apply in_or_app; right; simpl; tauto.
  - exact rows_per_sec_positive.
  - exact rows_per_sec_not_positive.
  - intros n s. apply rows_per_sec_not_positive. now destruct s.
  - vm_compute. reflexivity.
  - vm_compute. reflexivity.
  - intros n s. rewrite rows_per_sec_not_positive by now destruct s.
    reflexivity.
  - vm_compute. reflexivity.
  - intros x Hx. destruct x as [s|s| |s m e]; try discriminate;
      unfold format_2f.
    + destruct (fixed_2_shape 0) as [ip [d1 [d2 [E Hd]]]].
      exists ((if s then "-" else "") ++ ip)%string, d1, d2.
      split; [|exact Hd]. rewrite E. symmetry. apply string_app_assoc.
    + destruct (fixed_2_shape (hundredths m e)) as [ip [d1 [d2 [E Hd]]]].
      exists ((if s then "-" else "") ++ ip)%string, d1, d2.
      split; [|exact Hd]. rewrite E. symmetry. apply string_app_assoc.
  - intros x Hx. destruct x as [s|s| |s m e]; try discriminate.
    + destruct s; simpl; tauto.
    + simpl; tauto.
Qed.

(** ** The sample run, step by step *)

Lemma replace_write_last_wins_witness :
  let p1 := bind_params (pd.row_at (@clean_data Sample.parser Sample.extract) 0) in
  let p2 := bind_params (pd.row_at (@clean_data Sample.parser Sample.extract) 2) in
  rows_with_key (VInt 1) (replace_into (replace_into [] p1) p2) = [p2].
Proof.
  intros p1 p2.
  exact (proj1 (@replace_write_last_wins Sample.parser Sample.calm)
               [] p1 p2 eq_refl).
Defined.

Lemma row_failures_counted_and_skipped_witness :
  error_count
    (fst (@process_chunk Sample.parser Sample.one_bad_row Sample.extract
                         (entry []))) = 1
  /\ length (written Sample.one_bad_row 1 0
               (pd.iterrows (@clean_data Sample.parser Sample.extract))) = 2.
Proof.
  assert (Hothers : forall j, j < 3 -> j <> 1 ->
            execute_error Sample.one_bad_row 1 j = None).
  { intros [|[|j]] _ Hne; [reflexivity | | reflexivity].
    exfalso. apply Hne. reflexivity. }
  destruct (proj1 (@row_failures_counted_and_skipped Sample.parser
                     Sample.one_bad_row)
                  Sample.extract (entry []) 1 "Data too long"
                  (le_S 2 2 (le_n 2)) eq_refl Hothers eq_refl)
    as [_ [He [_ [Hn _]]]].
  split; [exact He | exact Hn].
Defined.

Lemma borough_never_empty_witness :
  borough (bind_params (pd.row_at (@clean_data Sample.parser Sample.extract) 1))
  <> VNone.
Proof.
  refine (proj1 (proj1 (@borough_never_empty Sample.parser) Sample.extract
                       (pd.row_at (@clean_data Sample.parser Sample.extract) 1)
                       _ _)).
  - repeat constructor.
  - right. left. reflexivity.
Defined.

Lemma total_rows_counts_input_rows_witness :
  total_rows (fst (@run Sample.parser Sample.one_bad_row [])) = 5
  /\ error_count (fst (@run Sample.parser Sample.one_bad_row [])) = 1
  /\ length (committed (fst (@run Sample.parser Sample.one_bad_row []))) = 3.
Proof.
  split; [|split; reflexivity].
  exact (proj1 (proj2 (@total_rows_counts_input_rows Sample.parser
                         Sample.one_bad_row [] eq_refl
                         (ex_intro _ Sample.extract eq_refl) eq_refl
                         (fun _ _ => eq_refl)))).
Defined.

Lemma fatal_error_rolls_back_and_releases_witness :
  committed (fst (@run Sample.parser Sample.lost_at_commit []))
  = @load_chunks Sample.parser Sample.lost_at_commit 1 [] [Sample.extract]
  /\ working (fst (@run Sample.parser Sample.lost_at_commit []))
     = committed (fst (@run Sample.parser Sample.lost_at_commit []))
  /\ conn_open (fst (@run Sample.parser Sample.lost_at_commit [])) = false.
Proof.
  assert (Hpre : forall cn, 1 <= cn <= 1 ->
            commit_error Sample.lost_at_commit cn = None).
  { intros [|[|cn]] [_ Hle]; [reflexivity | reflexivity |].
    exfalso. apply (Nat.nle_succ_0 cn). apply le_S_n. exact Hle. }
  destruct (proj1 (proj2 (@fatal_error_rolls_back_and_releases Sample.parser
                            Sample.lost_at_commit))
                  [] Sample.extract [Sample.extract] Sample.no_borough
                  [Sample.blank_borough] "Lost connection"
                  eq_refl eq_refl eq_refl Hpre eq_refl)
    as [_ [_ [Hc [Hw [_ [_ [Ho _]]]]]]].
  split; [exact Hc | split; [exact Hw | exact Ho]].
Defined.

Lemma throughput_reported_witness :
  let s := fst (@run Sample.parser Sample.calm []) in
  let duration :=
    float64.sub (end_time Sample.calm) (start_time Sample.calm) in
  In (PrDuration (format_2f duration)) (out s) /\
  In (PrSpeed (format_2f (rows_per_sec (total_rows s) duration))) (out s).
Proof.
  exact (proj1 (@throughput_reported Sample.parser Sample.calm) []
               eq_refl (ex_intro _ Sample.extract eq_refl) eq_refl
               (fun _ _ => eq_refl)).
Defined.

(** Three rows in ten seconds print as a throughput of 0.30. *)
Example calm_throughput :
  let duration :=
    float64.sub (end_time Sample.calm) (start_time Sample.calm) in
  format_2f duration = "10.00" /\
  format_2f (rows_per_sec 3 duration) = "0.30".
Proof. split; vm_compute; reflexivity. Qed.

(** Quotients on a tie of the third decimal print by the double they
    are: 203 rows in 200 seconds and 3 rows in 200 seconds are doubles
    just below 1.015 and 0.015, and an eighth is the tie it looks like. *)
Example throughput_near_ties :
  format_2f (rows_per_sec 203 (float64.of_int 200)) = "1.01" /\
  format_2f (rows_per_sec 3 (float64.of_int 200)) = "0.01" /\
  format_2f (rows_per_sec 1 (float64.of_int 8)) = "0.12" /\
  format_2f (rows_per_sec 3 (float64.of_int 8)) = "0.38".
Proof. repeat split; vm_compute; reflexivity. Qed.

Lemma safe_value_canonical_witness :
  safe_value (VStr "BRONX") = VStr "BRONX".
Proof.
  exact (proj1 (proj2 safe_value_canonical) (VStr "BRONX") eq_refl).
Defined.

(** The end-to-end scenario: the later row with key 1 is the one stored,
    row 2 is stored with borough ["UNKNOWN"] and no coordinates, and the
    total reported is 3. *)
Example end_to_end :
  let s := fst (@run Sample.parser Sample.calm []) in
  map borough (rows_with_key (VInt 1) (committed s)) = [VStr "QUEENS"] /\
  map (fun r => (borough r, latitude r, longitude r))
      (rows_with_key (VInt 2) (committed s))
  = [(VStr "UNKNOWN", VNone, VNone)] /\
  In (PrTotal 3) (out s) /\
  length (committed s) = 2.
Proof. vm_compute. repeat split; tauto. Qed.

(** * Further properties *)

(** ** app/main.py: the queries of the search page *)

Section AppQueries.
Import app.

Lemma truthy_cons a s : truthy (String a s) = true.
Proof. reflexivity. Qed.

(** X1. The text of the [WHERE] clause, and with it the text of both
    queries, depends on which filters are set and on nothing else: what
    the user typed reaches the server as arguments only. *)
Theorem query_text_fixed_by_active_filters f t b c f' t' b' c' :
  active_filters f t b c = active_filters f' t' b' c' ->
  where_clauses f t b c = where_clauses f' t' b' c' /\
  count_query (where_sql (where_clauses f t b c)) =
  count_query (where_sql (where_clauses f' t' b' c')) /\
  data_query (where_sql (where_clauses f t b c)) =
  data_query (where_sql (where_clauses f' t' b' c')) /\
  length (params f t b c) = length (params f' t' b' c').
Proof.
  unfold active_filters. intros E.
  assert (Hw : where_clauses f t b c = where_clauses f' t' b' c'
               /\ length (params f t b c) = length (params f' t' b' c')).
  { unfold where_clauses, params, where_clauses_and_params.
    injection E as E1 E2 E3 E4. rewrite E1, E2, E3, E4.
    destruct (truthy f'), (truthy t'),
      (truthy b' && negb (String.eqb b' "ALL")), (truthy c');
      split; reflexivity. }
  destruct Hw as [Hw Hp]. rewrite Hw. repeat split. exact Hp.
Qed.

(** X2. Each query text has exactly one [%s] per argument passed with it:
    the count query takes [params], the data query takes [params] and the
    two page arguments. *)
Theorem placeholders_match_arguments f t b c page :
  placeholders (count_query (where_sql (where_clauses f t b c)))
  = length (params f t b c) /\
  placeholders (data_query (where_sql (where_clauses f t b c)))
  = length (data_params (params f t b c) page).
Proof.
  unfold where_clauses, params, data_params, where_clauses_and_params.
  destruct (truthy f), (truthy t),
    (truthy b && negb (String.eqb b "ALL")), (truthy c);
    split; reflexivity.
Qed.

(** X3. The clause is [1=1] with no argument exactly when no filter is
    set, a borough of [ALL] counting as none; otherwise there is one
    clause and one argument per filter set, the complaint type wrapped in
    [%] on both sides. *)
Theorem where_clause_follows_filters f t b c :
  (where_sql (where_clauses f t b c) = "1=1" <->
   active_filters f t b c = (false, false, false, false)) /\
  (active_filters f t b c = (false, false, false, false) ->
   params f t b c = []) /\
  length (where_clauses f t b c) = length (params f t b c) /\
  (forall a, In a (params f t b c) ->
             a = SqlStr f \/ a = SqlStr t \/ a = SqlStr b
             \/ a = SqlStr ("%" ++ c ++ "%")).
Proof.
  unfold active_filters, where_clauses, params, where_clauses_and_params.
  destruct (truthy f), (truthy t),
    (truthy b && negb (String.eqb b "ALL")), (truthy c);
    simpl; (split; [split; intros E; first [reflexivity | discriminate E]|]);
    (split; [intros E; first [reflexivity | discriminate E]|]);
    (split; [reflexivity|]); intros a Ha; simpl in Ha;
    intuition (subst; auto 6).
Qed.

Lemma total_pages_bounds total_records :
  (0 <= total_records)%Z ->
  (total_records <= per_page * total_pages total_records)%Z /\
  (0 < total_records ->
   per_page * (total_pages total_records - 1) < total_records)%Z /\
  (total_pages total_records = 0 <-> total_records = 0)%Z.
Proof.
  intros Ht. unfold total_pages, per_page.
  pose proof (Z.div_mod (total_records + 50 - 1) 50 ltac:(lia)) as Hd.
  pose proof (Z.mod_pos_bound (total_records + 50 - 1) 50 ltac:(lia)) as Hm.
  repeat split; intros; lia.
Qed.

(** X4. For a non-negative count of records the page count is the least
    number of pages of 50 that holds them all. *)
Theorem total_pages_least total_records :
  (0 <= total_records)%Z ->
  (total_records <= per_page * total_pages total_records)%Z /\
  (0 < total_records ->
   per_page * (total_pages total_records - 1) < total_records)%Z /\
  (total_pages total_records = 0 <-> total_records = 0)%Z.
Proof. exact (total_pages_bounds total_records). Qed.

Lemma firstn_plus {A} (l : list A) : forall a b,
  firstn (a + b) l = firstn a l ++ firstn b (skipn a l).
Proof.
  induction l as [|x l IH]; intros a b.
  - now rewrite skipn_nil, !firstn_nil.
  - destruct a as [|a]; simpl; [reflexivity|]. now rewrite IH.
Qed.

Lemma pages_concat {A} (rows : list A) n k :
  concat (map (fun i => firstn n (skipn (i * n) rows)) (seq 0 k))
  = firstn (k * n) rows.
Proof.
  induction k as [|k IH]; [reflexivity|].
  rewrite seq_S, map_app, concat_app, IH. simpl.
  now rewrite app_nil_r, <- firstn_plus, Nat.add_comm.
Qed.

Lemma results_in_range {A} (rows : list A) page :
  (1 <= page)%Z ->
  results rows page =
  Some (firstn 50 (skipn ((Z.to_nat page - 1) * 50) rows)).
Proof.
  intros Hp. unfold results, limit_offset, offset, per_page.
  replace ((page - 1) * 50 <? 0)%Z with false by (symmetry; apply Z.ltb_ge; lia).
  cbn [orb Z.ltb Z.compare].
  replace (Z.to_nat ((page - 1) * 50)) with ((Z.to_nat page - 1) * 50) by lia.
  reflexivity.
Qed.

(** X5. The pages 1 to [total_pages] of a result, one after the other,
    are the whole result in its order: every row is on exactly one page. *)
Theorem pages_cover_results {A} (rows : list A) :
  let pages := map (fun i => Z.of_nat (S i))
                   (seq 0 (Z.to_nat (total_pages (Z.of_nat (length rows))))) in
  Forall (fun page => results rows page <> None) pages /\
  concat (map (fun page =>
                 match results rows page with
                 | Some shown => shown
                 | None => []
                 end) pages) = rows.
Proof.
  intros pages. unfold pages. split.
  - apply Forall_forall. intros page Hin.
    apply in_map_iff in Hin as [i [<- _]].
    rewrite results_in_range by lia. discriminate.
  - rewrite map_map.
    rewrite (map_ext _ (fun i => firstn 50 (skipn (i * 50) rows))).
    + rewrite pages_concat. apply firstn_all2.
      destruct (total_pages_bounds (Z.of_nat (length rows)) ltac:(lia))
        as [Hle _].
      unfold per_page in Hle. lia.
    + intros i. rewrite results_in_range by lia.
      do 2 f_equal. lia.
Qed.

(** X6. A page inside the range shows between 1 and 50 rows, a page past
    the last one shows none, and page 0 or a negative page asks for a
    negative offset, which the server refuses. *)
Theorem results_by_page {A} (rows : list A) page :
  ((1 <= page <= total_pages (Z.of_nat (length rows)))%Z ->
   exists shown, results rows page = Some shown /\
                 1 <= length shown <= 50) /\
  ((total_pages (Z.of_nat (length rows)) < page)%Z ->
   results rows page = Some []) /\
  ((page <= 0)%Z -> results rows page = None).
Proof.
  destruct (total_pages_bounds (Z.of_nat (length rows)) ltac:(lia))
    as [Hle [Hlt H0]].
  unfold per_page in Hle, Hlt.
  split; [|split].
  - intros Hp. rewrite results_in_range by lia. eexists. split; [reflexivity|].
    rewrite length_firstn, length_skipn.
    assert (0 < Z.of_nat (length rows))%Z by lia.
    specialize (Hlt H). lia.
  - intros Hp. rewrite results_in_range by lia. f_equal.
    rewrite skipn_all2; [apply firstn_nil|]. lia.
  - intros Hp. unfold results, limit_offset, offset, per_page.
    replace ((page - 1) * 50 <? 0)%Z with true; [reflexivity|].
    symmetry. apply Z.ltb_lt. lia.
Qed.

End AppQueries.

(** ** The table under repeated writes *)

Lemma filter_all {A} (f : A -> bool) (l : list A) :
  (forall x, In x l -> f x = true) -> filter f l = l.
Proof.
  induction l as [|x l IH]; intros Hf; simpl; [reflexivity|].
  rewrite (Hf x) by now left. f_equal. apply IH. intros y Hy. apply Hf. now right.
Qed.

Lemma filter_none {A} (f : A -> bool) (l : list A) :
  (forall x, In x l -> f x = false) -> filter f l = [].
Proof.
  induction l as [|x l IH]; intros Hf; simpl; [reflexivity|].
  rewrite (Hf x) by now left. apply IH. intros y Hy. apply Hf. now right.
Qed.

Lemma filter_twice {A} (f g : A -> bool) (l : list A) :
  filter f (filter g l) = filter (fun x => g x && f x) l.
Proof.
  induction l as [|x l IH]; simpl; [reflexivity|].
  destruct (g x); simpl; [destruct (f x)|]; now rewrite IH.
Qed.

Lemma load_app t a b : load t (a ++ b) = load (load t a) b.
Proof. apply fold_left_app. Qed.

Lemma written_key_In p ps : In p ps -> written_key ps p = true.
Proof.
  intros Hin. unfold written_key. apply existsb_exists. exists p.
  split; [exact Hin|]. unfold has_key. apply value_eqb_refl.
Qed.

Lemma In_last_writes p ps : In p (last_writes ps) -> In p ps.
Proof.
  induction ps as [|q ps IH]; simpl; [tauto|].
  destruct (written_key ps q); simpl; intuition.
Qed.

(** After the writes [ps] the table holds its old rows under the keys not
    written, in their order, followed by the last write of each key. *)
Lemma load_last_writes ps : forall t,
  load t ps = filter (fun r => negb (written_key ps r)) t ++ last_writes ps.
Proof.
  induction ps as [|p ps IH]; intros t.
  - simpl. rewrite app_nil_r. symmetry. now apply filter_all.
  - cbn [load fold_left]. fold (load (replace_into t p) ps). rewrite IH.
    unfold replace_into. rewrite filter_app, filter_twice, <- app_assoc.
    f_equal.
    + apply filter_ext. intros r. simpl. now rewrite negb_orb.
    + simpl. now destruct (written_key ps p).
Qed.

Lemma load_twice t ps : load (load t ps) ps = load t ps.
Proof.
  rewrite (load_last_writes ps (load t ps)), (load_last_writes ps t).
  rewrite filter_app, filter_twice. f_equal.
  rewrite (filter_none _ (last_writes ps)).
  - rewrite app_nil_r. apply filter_ext. intros r.
    now destruct (written_key ps r).
  - intros p Hp. apply In_last_writes in Hp.
    now rewrite (written_key_In p ps Hp).
Qed.

Lemma rows_with_key_load_other k ps : forall t,
  (forall p, In p ps -> unique_key p <> k) ->
  rows_with_key k (load t ps) = rows_with_key k t.
Proof.
  induction ps as [|p ps IH]; intros t Hk; [reflexivity|].
  cbn [load fold_left]. fold (load (replace_into t p) ps).
  rewrite IH by (intros q Hq; apply Hk; now right).
  apply rows_with_key_replace_other. apply Hk. now left.
Qed.

Lemma NoDup_map_filter {A B} (f : A -> B) (g : A -> bool) (l : list A) :
  NoDup (map f l) -> NoDup (map f (filter g l)).
Proof.
  induction l as [|x l IH]; simpl; intros Hnd; [constructor|].
  inversion Hnd as [|? ? Hnotin Hnd']; subst.
  destruct (g x); simpl; [|now apply IH].
  constructor; [|now apply IH].
  intros Hin. apply Hnotin. apply in_map_iff in Hin as [y [Hy Hin]].
  apply in_map_iff. exists y. split; [exact Hy|].
  now apply filter_In in Hin.
Qed.

Lemma unique_keys_replace_into t p :
  unique_keys t -> unique_keys (replace_into t p).
Proof.
  unfold unique_keys, replace_into. intros Hnd.
  rewrite map_app. simpl. apply NoDup_app.
  - now apply NoDup_map_filter.
  - constructor; [intros [] | constructor].
  - intros k Hk [<- | []].
    apply in_map_iff in Hk as [r [Hr Hin]].
    apply filter_In in Hin as [_ Hneg].
    unfold has_key in Hneg. rewrite Hr, value_eqb_refl in Hneg. discriminate.
Qed.

Lemma unique_keys_load ps : forall t, unique_keys t -> unique_keys (load t ps).
Proof.
  induction ps as [|p ps IH]; intros t Ht; [exact Ht|].
  cbn [load fold_left]. apply IH. now apply unique_keys_replace_into.
Qed.

(** ** A run, chunk by chunk *)

Section RunFacts.
Context `{Parser} (w : world).

Lemma load_chunks_all_written cs : forall cn t,
  load_chunks w cn t cs = load t (all_written w cn cs).
Proof.
  induction cs as [|chunk cs IH]; intros cn t; [reflexivity|].
  cbn [load_chunks all_written]. rewrite IH, load_app. reflexivity.
Qed.

Lemma error_count_after_chunks cs : forall s,
  error_count (after_chunks w cs s) =
  error_count s + length (all_failures w (chunk_num s + 1) cs).
Proof.
  induction cs as [|chunk cs IH]; intros s.
  - simpl. lia.
  - cbn [after_chunks all_failures].
    rewrite IH, error_count_after_chunk, chunk_num_after_chunk, length_app.
    replace (chunk_num s + 1 + 1) with (S (chunk_num s + 1)) by lia. lia.
Qed.

Lemma length_all_written_failures cs : forall cn,
  length (all_written w cn cs) + length (all_failures w cn cs) = sum_len cs.
Proof.
  induction cs as [|chunk cs IH]; intros cn; [reflexivity|].
  cbn [all_written all_failures]. rewrite !length_app.
  pose proof (written_or_failed w cn (pd.iterrows (clean_data chunk)) 0) as Hc.
  rewrite pd_facts.length_iterrows in Hc. unfold pd.len in Hc.
  rewrite nrows_clean_data in Hc. specialize (IH (S cn)).
  unfold sum_len in *. cbn [map]. change (list_sum (?x :: ?l)) with (x + list_sum l).
  unfold pd.len at 1. lia.
Qed.

Lemma out_after_chunk chunk s :
  out (after_chunk w chunk s) =
  ((out s ++ [PrProcessing (chunk_num s + 1) (pd.len chunk)])
   ++ map print_failure
        (firstn (error_budget (error_count s))
                (failures w (chunk_num s + 1) 0
                          (pd.iterrows (clean_data chunk)))))
  ++ [PrInserted (pd.len (clean_data chunk))
                 (total_rows s + pd.len (clean_data chunk))].
Proof. reflexivity. Qed.

Lemma out_rows_done chunk s :
  out (rows_done w chunk s) =
  (out s ++ [PrProcessing (chunk_num s + 1) (pd.len chunk)])
  ++ map print_failure
       (firstn (error_budget (error_count s))
               (failures w (chunk_num s + 1) 0
                         (pd.iterrows (clean_data chunk)))).
Proof. reflexivity. Qed.

Lemma row_errors_after_chunks cs : forall s,
  row_errors (out (after_chunks w cs s)) =
  row_errors (out s)
  ++ map print_failure
       (firstn (error_budget (error_count s))
               (all_failures w (chunk_num s + 1) cs)).
Proof.
  induction cs as [|chunk cs IH]; intros s.
  - simpl. now rewrite firstn_nil, app_nil_r.
  - cbn [after_chunks all_failures].
    rewrite IH, out_after_chunk, error_count_after_chunk, chunk_num_after_chunk.
    rewrite !row_errors_app, row_errors_failures. simpl.
    rewrite !app_nil_r, <- app_assoc. f_equal.
    rewrite <- map_app. f_equal.
    rewrite firstn_app. f_equal.
    replace (chunk_num s + 1 + 1) with (S (chunk_num s + 1)) by lia.
    f_equal. unfold error_budget. lia.
Qed.

Lemma committed_on_completion t d :
  connect_error w = None ->
  sample_read w = Ok d ->
  reader_error w = None ->
  (forall cn, 1 <= cn <= length (chunks w) -> commit_error w cn = None) ->
  committed (fst (run w t)) = load t (all_written w 1 (chunks w)).
Proof.
  intros Hc Hs Hr Hcommit.
  rewrite (run_completes w t d Hc Hs Hr Hcommit). cbn [fst].
  change (committed (after_chunks w (chunks w) (announced d (entry t)))
          = load t (all_written w 1 (chunks w))).
  rewrite committed_after_chunks by reflexivity.
  rewrite working_after_chunks. apply load_chunks_all_written.
Qed.

(** However a loop over chunks ends, what it has committed is the work of
    a whole number of leading chunks, and [total_rows] counts their rows. *)
Lemma for_chunks_prefix cs : forall s,
  committed s = working s ->
  exists k,
    k <= length cs /\
    committed (fst (for_chunks w cs s))
    = load_chunks w (chunk_num s + 1) (committed s) (firstn k cs) /\
    total_rows (fst (for_chunks w cs s))
    = total_rows s + sum_len (firstn k cs) /\
    (snd (for_chunks w cs s) = Ok tt ->
     working (fst (for_chunks w cs s)) = committed (fst (for_chunks w cs s))
     /\ k = length cs).
Proof.
  induction cs as [|chunk cs IH]; intros s Hs.
  - exists 0. cbn [for_chunks firstn load_chunks length].
    destruct (reader_error w) as [e|]; unfold raise, ret; cbn [fst snd];
      (split; [lia|]); (split; [reflexivity|]);
      (split; [unfold sum_len; simpl; lia|]); intros E.
    + discriminate E.
    + split; [symmetry; exact Hs | reflexivity].
  - cbn [for_chunks]. unfold bind. rewrite process_chunk_run.
    destruct (commit_error w (chunk_num s + 1)) as [e|].
    + exists 0. cbn [fst snd firstn load_chunks].
      repeat split; try (simpl; lia); try discriminate.
      unfold sum_len; simpl. change (total_rows (rows_done w chunk s))
        with (total_rows s). lia.
    + destruct (IH (after_chunk w chunk s) (committed_after_chunk w chunk s))
        as [k [Hk [Hc [Ht Hok]]]].
      exists (S k). cbn [firstn load_chunks length].
      split; [lia|]. split; [|split].
      * rewrite Hc, chunk_num_after_chunk, committed_after_chunk,
          working_after_chunk, Hs.
        replace (chunk_num s + 1 + 1) with (S (chunk_num s + 1)) by lia.
        reflexivity.
      * rewrite Ht, total_rows_after_chunk. unfold sum_len. simpl. lia.
      * intros E. destruct (Hok E) as [Hw ->]. now split.
Qed.

Lemma verdicts_for_chunks cs : forall s,
  filter is_verdict (out (fst (for_chunks w cs s)))
  = filter is_verdict (out s).
Proof.
  assert (Hf : forall fs, filter is_verdict (map print_failure fs) = []).
  { induction fs as [|f fs IHf]; [reflexivity | exact IHf]. }
  induction cs as [|chunk cs IH]; intros s.
  - simpl. now destruct (reader_error w).
  - cbn [for_chunks]. unfold bind. rewrite process_chunk_run.
    destruct (commit_error w (chunk_num s + 1)).
    + cbn [fst]. rewrite out_rows_done, !filter_app, Hf. simpl.
      now rewrite !app_nil_r.
    + rewrite IH, out_after_chunk, !filter_app, Hf. simpl.
      now rewrite !app_nil_r.
Qed.

End RunFacts.

(** ** etl.py: what a run leaves behind *)

Section RunExtras.
Context `{Parser} (w : world).

(** X7. Writing the same rows a second time changes nothing in the
    table, duplicates among them or not; so a completed run repeated on
    the table it produced leaves that table as it is, as the comment at the
    [REPLACE] says ("idempotent with REPLACE"). *)
Theorem reload_changes_nothing :
  (forall t ps, load (load t ps) ps = load t ps) /\
  (forall t d,
      connect_error w = None ->
      sample_read w = Ok d ->
      reader_error w = None ->
      (forall cn, 1 <= cn <= length (chunks w) -> commit_error w cn = None) ->
      committed (fst (run w (committed (fst (run w t)))))
      = committed (fst (run w t))).
Proof.
  split; [exact load_twice|].
  intros t d Hc Hs Hr Hcommit.
  rewrite !(committed_on_completion w _ d Hc Hs Hr Hcommit).
  apply load_twice.
Qed.

(** X8. When a run completes, the table is the old one with the accepted
    writes of all chunks applied in order, the error counter (also the
    count printed in the summary) is the number of rejected rows, and
    every row read was either written or counted as an error. *)
Theorem completed_run_accounts t d :
  connect_error w = None ->
  sample_read w = Ok d ->
  reader_error w = None ->
  (forall cn, 1 <= cn <= length (chunks w) -> commit_error w cn = None) ->
  committed (fst (run w t)) = load t (all_written w 1 (chunks w)) /\
  error_count (fst (run w t)) = length (all_failures w 1 (chunks w)) /\
  total_rows (fst (run w t))
  = length (all_written w 1 (chunks w)) + error_count (fst (run w t)) /\
  In (PrErrors (length (all_failures w 1 (chunks w)))) (out (fst (run w t))).
Proof.
  intros Hc Hs Hr Hcommit.
  split; [exact (committed_on_completion w t d Hc Hs Hr Hcommit)|].
  rewrite (run_completes w t d Hc Hs Hr Hcommit). cbn [fst].
  set (s := after_chunks w (chunks w) (announced d (entry t))).
  assert (He : error_count s = length (all_failures w 1 (chunks w))).
  { unfold s. rewrite error_count_after_chunks. reflexivity. }
  assert (Ht : total_rows s = sum_len (chunks w)).
  { unfold s. now rewrite total_rows_after_chunks. }
  change (error_count (normal_exit _)) with (error_count s).
  change (total_rows (normal_exit _)) with (total_rows s).
  split; [exact He|]. split.
  - rewrite Ht, He. symmetry. apply length_all_written_failures.
  - change (out (normal_exit _))
      with (out s ++ summary (sum_len (chunks w)) (error_count s)
                             (float64.sub (end_time w) (start_time w))).
    rewrite He. apply in_or_app. right. unfold summary. simpl. tauto.
Qed.

(** X9. When a run completes, the row errors it printed are the first ten
    rejected rows of the whole run, in order, each with its key and its
    error. *)
Theorem first_ten_row_errors_printed t d :
  connect_error w = None ->
  sample_read w = Ok d ->
  reader_error w = None ->
  (forall cn, 1 <= cn <= length (chunks w) -> commit_error w cn = None) ->
  row_errors (out (fst (run w t)))
  = map print_failure (firstn 10 (all_failures w 1 (chunks w))).
Proof.
  intros Hc Hs Hr Hcommit.
  rewrite (run_completes w t d Hc Hs Hr Hcommit). cbn [fst].
  set (s := after_chunks w (chunks w) (announced d (entry t))).
  change (out (normal_exit _))
    with (out s ++ summary (sum_len (chunks w)) (error_count s)
                           (float64.sub (end_time w) (start_time w))).
  rewrite row_errors_app. unfold s at 1. rewrite row_errors_after_chunks.
  simpl. now rewrite app_nil_r.
Qed.

(** X10. However a run ends, the committed table is the old one with a
    whole number of leading chunks applied (never part of a chunk),
    nothing is left uncommitted, and [total_rows] is the number of rows of
    exactly those chunks. *)
Theorem committed_is_whole_chunks t :
  exists k,
    k <= length (chunks w) /\
    committed (fst (run w t)) = load_chunks w 1 t (firstn k (chunks w)) /\
    working (fst (run w t)) = committed (fst (run w t)) /\
    total_rows (fst (run w t)) = list_sum (map pd.len (firstn k (chunks w))).
Proof.
  rewrite run_unfold. destruct (connect_error w) as [e|].
  { exists 0. repeat split. lia. }
  rewrite guarded_run, body_run.
  destruct (sample_read w) as [d|e].
  2:{ exists 0. repeat split. lia. }
  destruct (for_chunks_prefix w (chunks w) (announced d (entry t)) eq_refl)
    as [k [Hk [Hcm [Ht Hok]]]].
  exists k. split; [exact Hk|].
  destruct (for_chunks w (chunks w) (announced d (entry t))) as [s' [[]|e]];
    cbn [fst snd] in *.
  - rewrite report_run. cbn [fst].
    destruct (Hok eq_refl) as [Hw _].
    repeat split; [exact Hcm | exact Hw | exact Ht].
  - repeat split; [exact Hcm | exact Ht].
Qed.

(** X11. A run that got its connection prints exactly one line saying how
    it ended, [ETL COMPLETE] or the fatal error, and [ETL COMPLETE] only
    when every chunk has been committed and counted; a run that could not
    connect prints neither. *)
Theorem one_verdict_per_run t :
  (connect_error w = None ->
   (filter is_verdict (out (fst (run w t))) = [PrComplete] /\
    committed (fst (run w t)) = load_chunks w 1 t (chunks w) /\
    total_rows (fst (run w t)) = list_sum (map pd.len (chunks w))) \/
   (exists e, filter is_verdict (out (fst (run w t))) = [PrFatal e])) /\
  (connect_error w <> None ->
   filter is_verdict (out (fst (run w t))) = []).
Proof.
  rewrite run_unfold. split.
  - intros Hc. rewrite Hc, guarded_run, body_run.
    destruct (sample_read w) as [d|e]; [|right; exists e; reflexivity].
    pose proof (verdicts_for_chunks w (chunks w) (announced d (entry t))) as Hv.
    destruct (for_chunks_prefix w (chunks w) (announced d (entry t)) eq_refl)
      as [k [Hk [Hcm [Ht Hok]]]].
    destruct (for_chunks w (chunks w) (announced d (entry t))) as [s' [[]|e]];
      cbn [fst snd] in *.
    + left. rewrite report_run. cbn [fst].
      destruct (Hok eq_refl) as [_ ->]. rewrite firstn_all in Hcm, Ht.
      split; [|split; [exact Hcm | exact Ht]].
      change (out (normal_exit _))
        with (out s' ++ summary (total_rows s') (error_count s')
                                (float64.sub (end_time w) (start_time w))).
      rewrite filter_app, Hv. reflexivity.
    + right. exists e.
      change (out (fatal_exit e s')) with (out s' ++ [PrFatal e; PrTraceback]).
      rewrite filter_app, Hv. reflexivity.
  - intros Hc. destruct (connect_error w); [reflexivity | congruence].
Qed.

(** X12. A run touches only the keys its source binds: under any other
    key the table holds after the run exactly the rows it held before. *)
Theorem other_keys_untouched t k :
  (forall chunk row,
      In chunk (chunks w) -> In row (pd.iterrows (clean_data chunk)) ->
      unique_key (bind_params row) <> k) ->
  rows_with_key k (committed (fst (run w t))) = rows_with_key k t /\
  rows_with_key k (working (fst (run w t))) = rows_with_key k t.
Proof.
  intros Hk.
  set (Inv := fun s : state =>
                rows_with_key k (committed s) = rows_with_key k t /\
                rows_with_key k (working s) = rows_with_key k t).
  set (good := fun chunk : pd.DataFrame =>
                 forall row, In row (pd.iterrows (clean_data chunk)) ->
                             unique_key (bind_params row) <> k).
  assert (Hrows : forall chunk s, good chunk -> Inv s ->
                                  Inv (rows_done w chunk s)).
  { intros chunk s Hg [Hc Hw]. split; [exact Hc|].
    rewrite working_rows_done, rows_with_key_load_other; [exact Hw|].
    intros p Hp. apply In_written in Hp as [row [Hrow ->]]. now apply Hg. }
  apply (run_invariant w Inv good).
  - intros d s Hs. exact Hs.
  - exact Hrows.
  - intros chunk s Hg Hs. destruct (Hrows chunk s Hg Hs) as [_ Hw].
    split; exact Hw.
  - intros l s _ Hs. exact Hs.
  - intros e s [Hc _]. split; exact Hc.
  - intros s Hs. exact Hs.
  - apply Forall_forall. intros chunk Hin row Hrow. now apply (Hk chunk row).
  - split; reflexivity.
  - split; reflexivity.
Qed.

(** X13. A table in which no two rows share a key is still one after a
    run, however the run ends. *)
Theorem unique_keys_kept t :
  unique_keys t ->
  unique_keys (committed (fst (run w t))) /\
  unique_keys (working (fst (run w t))).
Proof.
  intros Ht.
  set (Inv := fun s : state =>
                unique_keys (committed s) /\ unique_keys (working s)).
  assert (Hrows : forall chunk s, True -> Inv s -> Inv (rows_done w chunk s)).
  { intros chunk s _ [Hc Hw]. split; [exact Hc|].
    rewrite working_rows_done. now apply unique_keys_load. }
  apply (run_invariant w Inv (fun _ => True)).
  - intros d s Hs. exact Hs.
  - exact Hrows.
  - intros chunk s Hg Hs. destruct (Hrows chunk s Hg Hs) as [_ Hw].
    split; exact Hw.
  - intros l s _ Hs. exact Hs.
  - intros e s [Hc _]. split; exact Hc.
  - intros s Hs. exact Hs.
  - now apply Forall_forall.
  - split; exact Ht.
  - split; exact Ht.
Qed.

End RunExtras.

Lemma signed_not_below_zero x :
  signed_as false x -> float64.ltb x float64.zero = false.
Proof.
  intros [Hn Hs]. destruct x as [s|s| |s m e]; try discriminate;
    simpl in Hs; subst s; reflexivity.
Qed.

(** X14. The throughput is never negative, whatever the two clock
    readings are: its sign bit is not set and it is not below 0.  It is a
    number unless the duration is infinite. *)
Theorem rows_per_sec_nonnegative n d :
  float64.signbit (rows_per_sec n d) = false /\
  float64.ltb (rows_per_sec n d) float64.zero = false /\
  (float64.is_nan (rows_per_sec n d) = true -> d = float64.inf).
Proof.
  pose proof (of_int_signed (Z.of_nat n) (Nat2Z.is_nonneg n)) as Ha.
  unfold rows_per_sec.
  destruct (float64.ltb float64.zero d) eqn:E;
    [|repeat split; discriminate].
  destruct d as [s|s| |s m e]; try discriminate;
    destruct s; try discriminate.
  - destruct Ha as [Hn Hs].
    destruct (float64.of_int (Z.of_nat n)) as [sa|sa| |sa ma ea];
      try discriminate; simpl in Hs; subst sa; repeat split; discriminate.
  - assert (Hq : signed_as false
                   (float64.div (float64.of_int (Z.of_nat n))
                                (S754_finite false m e))).
    { apply div_signed; [exact Ha | now split | now right | discriminate]. }
    split; [apply Hq|]. split; [now apply signed_not_below_zero|].
    destruct Hq as [Hq _]. rewrite Hq. discriminate.
Qed.

(** ** etl.py: what cleaning leaves alone *)

Section CleaningExtras.
Context `{Parser}.
Import pd pd_facts.

(** X15. In a column other than Borough, the two dates and the two
    coordinates, cleaning changes nothing but the missing-value markers,
    which become [None]: a cell that holds a value keeps it. *)
Theorem clean_data_other_columns df c i :
  ~ In c cleaned_columns ->
  cell (clean_data df) c i = option_map none_if_na (cell df c i) /\
  (forall v, cell df c i = Some v -> isna v = false ->
             cell (clean_data df) c i = Some v).
Proof.
  intros Hc.
  assert (E : cell (clean_data df) c i = option_map none_if_na (cell df c i)).
  { rewrite cell_clean_data. unfold cell, clean_column.
    destruct (lookup_col c (cols df)) as [s|]; [|reflexivity].
    unfold cleaned_columns in Hc. simpl in Hc.
    destruct (String.eqb_spec c "Borough"); [exfalso; apply Hc; subst; auto 10|].
    destruct (String.eqb_spec c "Created Date"); [exfalso; apply Hc; subst; auto 10|].
    destruct (String.eqb_spec c "Closed Date"); [exfalso; apply Hc; subst; auto 10|].
    destruct (String.eqb_spec c "Latitude"); [exfalso; apply Hc; subst; auto 10|].
    destruct (String.eqb_spec c "Longitude"); [exfalso; apply Hc; subst; auto 10|].
    apply nth_error_map. }
  split; [exact E|].
  intros v Hv Hna. rewrite E, Hv. simpl. unfold none_if_na. now rewrite Hna.
Qed.

End CleaningExtras.

(** ** etl.py: cleaning twice *)

Section CleaningTwice.
Context `{Parser}.
Import pd pd_facts.

Lemma lookup_col_None c l :
  lookup_col c l = None -> forall cs, In cs l -> String.eqb c (fst cs) = false.
Proof.
  induction l as [|[k x] l IH]; simpl; intros E cs Hin; [contradiction|].
  destruct (String.eqb c k) eqn:Ek; [discriminate|].
  destruct Hin as [<- | Hin]; [exact Ek | now apply IH].
Qed.

Lemma lookup_col_NoDup c s l :
  NoDup (map fst l) -> In (c, s) l -> lookup_col c l = Some s.
Proof.
  induction l as [|[k x] l IH]; simpl; intros Hnd Hin; [contradiction|].
  inversion Hnd as [|? ? Hnotin Hnd']; subst.
  destruct Hin as [[= -> ->] | Hin].
  - now rewrite String.eqb_refl.
  - destruct (String.eqb_spec c k) as [->|_]; [|now apply IH].
    exfalso. apply Hnotin. apply in_map_iff. now exists (k, s).
Qed.

Lemma cols_update c f df :
  NoDup (columns df) ->
  cols (update c f df) =
  map (fun cs => if String.eqb c (fst cs) then (fst cs, f (snd cs)) else cs)
      (cols df).
Proof.
  intros Hnd. unfold update, getitem. rewrite in_columns_lookup.
  destruct (lookup_col c (cols df)) as [s0|] eqn:E.
  - unfold setitem; simpl. rewrite in_columns_lookup, E.
    apply map_ext_in. intros [k x] Hin; simpl.
    destruct (String.eqb_spec c k) as [->|_]; [|reflexivity].
    rewrite (lookup_col_NoDup k x (cols df) Hnd Hin) in E.
    now injection E as ->.
  - rewrite <- (map_id (cols df)) at 1.
    apply map_ext_in. intros cs Hin.
    now rewrite (lookup_col_None c (cols df) E cs Hin).
Qed.

(** With distinct labels, cleaning works column by column. *)
Lemma cols_clean_data df :
  NoDup (columns df) ->
  cols (clean_data df) =
  map (fun cs => (fst cs, clean_column (fst cs) (snd cs))) (cols df).
Proof.
  intros Hnd. rewrite clean_data_updates. unfold replace_nan_None.
  cbn [cols].
  rewrite !cols_update by (rewrite ?columns_update; exact Hnd).
  rewrite !map_map. apply map_ext. intros [k x]. unfold clean_column.
  cbn [fst snd].
  repeat match goal with
         | |- context [String.eqb ?a k] =>
             destruct (String.eqb_spec a k) as [<-|?]; cbn [fst snd];
             [reflexivity|]
         end.
  repeat match goal with
         | |- context [String.eqb k ?a] =>
             destruct (String.eqb_spec k a); [congruence|]
         end.
  reflexivity.
Qed.

Lemma ints_of_ints zs : ints (map VInt zs) = Some zs.
Proof. induction zs as [|z zs IH]; simpl; [reflexivity | now rewrite IH]. Qed.

Lemma to_numeric_floats s :
  forallb is_float_or_None s = true -> map none_if_na (to_numeric s) = s.
Proof.
  intros Hs. unfold to_numeric, floats.
  destruct (ints s) as [zs|] eqn:E.
  - destruct s as [|v s]; [now injection E as <-|].
    exfalso. simpl in Hs, E. apply andb_prop in Hs as [Hv _].
    cases v; try discriminate.
  - rewrite !map_map. clear E.
    induction s as [|v s IH]; [reflexivity|].
    simpl in Hs. apply andb_prop in Hs as [Hv Hs].
    cbn [map]. rewrite (IH Hs). f_equal.
    cases v; try discriminate; reflexivity.
Qed.

Lemma widened_cells_are_floats (l : list float) :
  forallb is_float_or_None (map none_if_na (map VFloat l)) = true.
Proof.
  induction l as [|x l IH]; [reflexivity|].
  cbn [map forallb]. rewrite IH, andb_true_r. now destruct x.
Qed.

Lemma clean_coordinates_twice s :
  map none_if_na (to_numeric (map none_if_na (to_numeric s)))
  = map none_if_na (to_numeric s).
Proof.
  unfold to_numeric at 2 3.
  destruct (ints s) as [zs|] eqn:E.
  - assert (E1 : map none_if_na (map VInt zs) = map VInt zs).
    { rewrite map_map. now apply map_ext. }
    rewrite E1. unfold to_numeric. now rewrite ints_of_ints.
  - apply to_numeric_floats. apply widened_cells_are_floats.
Qed.

Lemma cleaned_dates s :
  forallb is_timestamp_or_None (map none_if_na (to_datetime s)) = true.
Proof.
  rewrite to_datetime_cells, map_map. apply forallb_forall.
  intros v Hv. apply in_map_iff in Hv as [u [<- _]].
  destruct (date_cell_kind s u) as [-> | [t ->]]; reflexivity.
Qed.

(** No format is guessed for a column of timestamps. *)
Lemma no_format_for_timestamps s :
  forallb is_timestamp_or_None s = true ->
  guess_datetime_format_for_array s = None.
Proof.
  intros Hs. unfold guess_datetime_format_for_array, first_non_null.
  destruct (find (fun v => negb (is_null_text v)) s) as [v|] eqn:E;
    [|reflexivity].
  apply find_some in E as [Hin _].
  rewrite forallb_forall in Hs. specialize (Hs v Hin).
  cases v; try discriminate; reflexivity.
Qed.

Lemma clean_dates_twice s :
  map none_if_na (to_datetime (map none_if_na (to_datetime s)))
  = map none_if_na (to_datetime s).
Proof.
  pose proof (cleaned_dates s) as Hs.
  revert Hs. generalize (map none_if_na (to_datetime s)). intros l Hl.
  unfold to_datetime. rewrite (no_format_for_timestamps l Hl).
  rewrite map_map.
  induction l as [|v l IH]; [reflexivity|].
  simpl in Hl. apply andb_prop in Hl as [Hv Hl].
  cbn [map]. rewrite (IH Hl). f_equal.
  cases v; try discriminate; reflexivity.
Qed.

Lemma clean_column_twice c s :
  clean_column c (clean_column c s) = clean_column c s.
Proof.
  unfold clean_column.
  destruct (String.eqb c "Borough").
  { unfold fix_borough, replace, fillna. rewrite !map_map.
    apply map_ext. intros v. cases v; simpl; try reflexivity.
    match goal with
    | |- context [String.eqb ?x ""] => destruct (String.eqb x "") eqn:E
    end; simpl; [reflexivity|].
    now rewrite E. }
  destruct (String.eqb c "Created Date"); [apply clean_dates_twice|].
  destruct (String.eqb c "Closed Date"); [apply clean_dates_twice|].
  destruct (String.eqb c "Latitude"); [apply clean_coordinates_twice|].
  destruct (String.eqb c "Longitude"); [apply clean_coordinates_twice|].
  rewrite map_map. apply map_ext. intros v. now cases v.
Qed.

(** X16. Cleaning a chunk that has been cleaned changes nothing (for a
    chunk whose column labels are distinct, as [read_csv] makes them). *)
Theorem clean_data_idempotent df :
  NoDup (columns df) ->
  clean_data (clean_data df) = clean_data df.
Proof.
  intros Hnd.
  assert (Hnd' : NoDup (columns (clean_data df)))
    by now rewrite columns_clean_data.
  pose proof (cols_clean_data (clean_data df) Hnd') as E2.
  rewrite (cols_clean_data df Hnd) in E2.
  rewrite map_map in E2. cbn [fst snd] in E2.
  pose proof (nrows_clean_data (clean_data df)) as En.
  assert (Ec : cols (clean_data (clean_data df)) = cols (clean_data df)).
  { rewrite E2, (cols_clean_data df Hnd). apply map_ext. intros [k x].
    cbn [fst snd]. now rewrite clean_column_twice. }
  destruct (clean_data (clean_data df)), (clean_data df).
  simpl in En, Ec. now subst.
Qed.

End CleaningTwice.

(** ** etl.py: columns the source does not have *)

Section AbsentColumns.
Context `{Parser}.
Import pd pd_facts.

Lemma get_absent df row c d :
  In row (iterrows (clean_data df)) -> in_columns c df = false ->
  get row c d = d.
Proof.
  intros Hin Habs. apply In_iterrows in Hin as [i [_ ->]].
  rewrite get_row_at, lookup_clean_data.
  rewrite in_columns_lookup in Habs.
  now destruct (lookup_col c (cols df)).
Qed.

(** X17. For a column the source does not have, [row.get] falls back on
    its default in every row: the key and the other seven fields are bound
    as [None] (the server's NULL). *)
Theorem absent_columns_bind_None df row :
  In row (iterrows (clean_data df)) ->
  (forall c d, in_columns c df = false -> get row c d = d) /\
  (in_columns "Unique Key" df = false -> unique_key (bind_params row) = VNone) /\
  (in_columns "Created Date" df = false -> created_date (bind_params row) = VNone) /\
  (in_columns "Closed Date" df = false -> closed_date (bind_params row) = VNone) /\
  (in_columns "Agency" df = false -> agency (bind_params row) = VNone) /\
  (in_columns "Complaint Type" df = false ->
   complaint_type (bind_params row) = VNone) /\
  (in_columns "Descriptor" df = false -> descriptor (bind_params row) = VNone) /\
  (in_columns "Latitude" df = false -> latitude (bind_params row) = VNone) /\
  (in_columns "Longitude" df = false -> longitude (bind_params row) = VNone).
Proof.
  intros Hin.
  split; [intros c d; now apply get_absent|].
  repeat split; intros Habs; unfold bind_params; cbn [unique_key created_date
    closed_date agency complaint_type descriptor latitude longitude];
    now rewrite (get_absent df row _ VNone Hin Habs).
Qed.

End AbsentColumns.

(** ** The sample source and searches, step by step *)

Lemma query_text_fixed_by_active_filters_witness :
  app.count_query
    (app.where_sql (app.where_clauses "2025-01-01" "" "ALL" "Noise"))
  = app.count_query
      (app.where_sql (app.where_clauses "' OR 1=1 --" "" "" "Rodent")).
Proof.
  exact (proj1 (proj2 (query_text_fixed_by_active_filters
                         "2025-01-01" "" "ALL" "Noise"
                         "' OR 1=1 --" "" "" "Rodent" eq_refl))).
Defined.

Lemma where_clause_follows_filters_witness :
  app.where_sql (app.where_clauses "" "" "ALL" "") = "1=1".
Proof.
  exact (proj2 (proj1 (where_clause_follows_filters "" "" "ALL" ""))
               eq_refl).
Defined.

Lemma total_pages_least_witness :
  (101 <= app.per_page * app.total_pages 101)%Z.
Proof.
  refine (proj1 (total_pages_least 101 _)). discriminate.
Defined.

Lemma results_by_page_witness :
  app.results [1; 2; 3] 0 = None.
Proof.
  refine (proj2 (proj2 (results_by_page [1; 2; 3] 0)) _). discriminate.
Defined.

Lemma reload_changes_nothing_witness :
  committed
    (fst (@run Sample.parser Sample.one_bad_row
               (committed (fst (@run Sample.parser Sample.one_bad_row [])))))
  = committed (fst (@run Sample.parser Sample.one_bad_row [])).
Proof.
  exact (proj2 (@reload_changes_nothing Sample.parser Sample.one_bad_row)
               [] Sample.extract eq_refl eq_refl eq_refl (fun _ _ => eq_refl)).
Defined.

Lemma completed_run_accounts_witness :
  error_count (fst (@run Sample.parser Sample.one_bad_row []))
  = length (@all_failures Sample.parser Sample.one_bad_row 1
                          (chunks Sample.one_bad_row)).
Proof.
  exact (proj1 (proj2 (@completed_run_accounts Sample.parser Sample.one_bad_row
                         [] Sample.extract eq_refl eq_refl eq_refl
                         (fun _ _ => eq_refl)))).
Defined.

Lemma first_ten_row_errors_printed_witness :
  row_errors (out (fst (@run Sample.parser Sample.all_rejected [])))
  = map print_failure
        (firstn 10 (@all_failures Sample.parser Sample.all_rejected 1
                                  (chunks Sample.all_rejected))).
Proof.
  exact (@first_ten_row_errors_printed Sample.parser Sample.all_rejected
           [] Sample.extract eq_refl eq_refl eq_refl (fun _ _ => eq_refl)).
Defined.

Lemma one_verdict_per_run_witness :
  filter is_verdict (out (fst (@run Sample.parser Sample.no_server []))) = [].
Proof.
  refine (proj2 (@one_verdict_per_run Sample.parser Sample.no_server []) _).
  discriminate.
Defined.

Lemma other_keys_untouched_witness :
  let old := bind_params [("Unique Key", VInt 99); ("Borough", VStr "BRONX")] in
  rows_with_key (VInt 99)
    (committed (fst (@run Sample.parser Sample.calm [old])))
  = rows_with_key (VInt 99) [old].
Proof.
  intros old.
  refine (proj1 (@other_keys_untouched Sample.parser Sample.calm [old]
                   (VInt 99) _)).
  intros chunk row [<- | []] Hrow. cbv in Hrow.
  repeat (destruct Hrow as [<- | Hrow]; [discriminate|]). contradiction.
Defined.

Lemma unique_keys_kept_witness :
  unique_keys (committed (fst (@run Sample.parser Sample.calm []))).
Proof.
  refine (proj1 (@unique_keys_kept Sample.parser Sample.calm [] _)).
  constructor.
Defined.

Lemma clean_data_other_columns_witness :
  pd.cell (@clean_data Sample.parser Sample.extract) "Descriptor" 1
  = Some VNone.
Proof.
  refine (proj1 (@clean_data_other_columns Sample.parser Sample.extract
                   "Descriptor" 1 _)).
  intros Hin. cbv in Hin. intuition discriminate.
Defined.

Lemma clean_data_idempotent_witness :
  @clean_data Sample.parser (@clean_data Sample.parser Sample.extract)
  = @clean_data Sample.parser Sample.extract.
Proof.
  refine (@clean_data_idempotent Sample.parser Sample.extract _).
  repeat (constructor; [cbv; intuition discriminate|]). constructor.
Defined.

Lemma absent_columns_bind_None_witness :
  latitude (bind_params
              (pd.row_at (@clean_data Sample.parser Sample.no_borough) 0))
  = VNone.
Proof.
  refine (proj1 (proj2 (proj2 (proj2 (proj2 (proj2 (proj2 (proj2
            (@absent_columns_bind_None Sample.parser Sample.no_borough
               (pd.row_at (@clean_data Sample.parser Sample.no_borough) 0)
               _)))))))) eq_refl).
  left. reflexivity.
Defined.
